(** * The cycle scheduler of the prosthetic hand firmware

    A shallow embedding of [firmware/ProstheticHand/src/main.cpp] and
    [main_e.h]: the globals of the main OS, the initialisation function,
    the polling entry point [main_f_Handle_v] and the runtime measurement
    helpers, followed by the properties of the scheduler.

    Conventions.
    - A [uintN_t] object is a [Z] in [0, 2^N); every store into one and
      every arithmetic result of that type is reduced with [u16], [u32]
      or [u64].
    - The globals live in one record, threaded by a small monad [M] whose
      outcome is either a result with the new globals, a [Fault] (an
      access outside [main_g_RuntimeMeas_s], undefined in C++), or
      [Timeout] (a loop that used up its fuel).
    - [micros()] is the external clock.  A function that calls it takes
      the value(s) the clock returns during that call as arguments.
    - The collaborators ([btn], [pot], [srv]) are external; a call into one
      is recorded in the ghost field [calls] and touches no global of the
      main OS. *)

From Stdlib Require Import ZArith Lia List Bool.
From stdpp Require Import base decidable option list strings.
Import ListNotations.

Local Open Scope Z_scope.

(** ** Fixed-width unsigned integers *)

Module Word.

Definition wrap (bits x : Z) : Z := x mod 2 ^ bits.

Definition fits (bits x : Z) : Prop := 0 <= x < 2 ^ bits.

End Word.

Definition u16 : Z -> Z := Word.wrap 16.
Definition u32 : Z -> Z := Word.wrap 32.
Definition u64 : Z -> Z := Word.wrap 64.

(** ** Data of [main_e.h] and [main.cpp] *)

(** [main_g_RuntimeMeasTyp_t] *)
Record main_g_RuntimeMeasTyp_t : Type := RuntimeMeas {
  currentCycle_u32 : Z;
  minCycle_u32 : Z;
  maxCycle_u32 : Z
}.

(** The collaborators included by [main.cpp]. *)
Inductive Component : Type := btn | pot | srv.

(** The arm of the dispatch [switch] that is taken. *)
Inductive Branch : Type :=
| Bound (c : Component)   (* the arm calls the collaborator's handle *)
| ToBePopulated           (* an arm whose body is only [break] *)
| DefaultArm.             (* [default: This should not happen!] *)

(** Observable calls: a collaborator's init function, or one execution of
    the dispatch [switch] with its selector and the arm taken. *)
Inductive Event : Type :=
| InitCall (c : Component)
| Dispatch (slot : Z) (arm : Branch).

(** The globals of [main.cpp], with the ghost trace [calls] (oldest
    first). *)
Record Globals : Type := MkGlobals {
  main_g_CurrMicros_u64 : Z;
  main_g_LastMicros_u64 : Z;
  main_g_CurrTaskIndex_u16 : Z;
  main_g_RuntimeMeas_s : list main_g_RuntimeMeasTyp_t;
  calls : list Event
}.

(** ** The monad of the main OS *)

Inductive Outcome (A : Type) : Type :=
| Done (a : A) (g : Globals)
| Fault
| Timeout.
Arguments Done {A} a g.
Arguments Fault {A}.
Arguments Timeout {A}.

Definition M (A : Type) : Type := Globals -> Outcome A.

#[export] Instance M_ret : MRet M := fun A a g => Done a g.

#[export] Instance M_bind : MBind M := fun A B f m g =>
  match m g with
  | Done a g' => f a g'
  | Fault => Fault
  | Timeout => Timeout
  end.

Definition get : M Globals := fun g => Done g g.
Definition timeout {A} : M A := fun _ => Timeout.
Definition when (b : bool) (m : M unit) : M unit := if b then m else mret tt.

(** Assignments to the scalar globals. *)
Definition set_CurrMicros (v : Z) : M unit := fun g =>
  Done tt (MkGlobals v (main_g_LastMicros_u64 g) (main_g_CurrTaskIndex_u16 g)
             (main_g_RuntimeMeas_s g) (calls g)).

Definition set_LastMicros (v : Z) : M unit := fun g =>
  Done tt (MkGlobals (main_g_CurrMicros_u64 g) v (main_g_CurrTaskIndex_u16 g)
             (main_g_RuntimeMeas_s g) (calls g)).

Definition set_CurrTaskIndex (v : Z) : M unit := fun g =>
  Done tt (MkGlobals (main_g_CurrMicros_u64 g) (main_g_LastMicros_u64 g) v
             (main_g_RuntimeMeas_s g) (calls g)).

Definition set_RuntimeMeas (a : list main_g_RuntimeMeasTyp_t) : M unit := fun g =>
  Done tt (MkGlobals (main_g_CurrMicros_u64 g) (main_g_LastMicros_u64 g)
             (main_g_CurrTaskIndex_u16 g) a (calls g)).

Definition emit (e : Event) : M unit := fun g =>
  Done tt (MkGlobals (main_g_CurrMicros_u64 g) (main_g_LastMicros_u64 g)
             (main_g_CurrTaskIndex_u16 g) (main_g_RuntimeMeas_s g)
             (calls g ++ [e])).

(** [main_g_RuntimeMeas_s[index]] as an rvalue: a [Fault] outside the
    array. *)
Definition rtm_load (index : Z) : M main_g_RuntimeMeasTyp_t := fun g =>
  if index <? 0 then Fault
  else match main_g_RuntimeMeas_s g !! Z.to_nat index with
       | Some r => Done r g
       | None => Fault
       end.

(** [main_g_RuntimeMeas_s[index].field = ...]: the record at [index] is
    replaced by [f] of it; a [Fault] outside the array. *)
Definition rtm_modify (index : Z)
    (f : main_g_RuntimeMeasTyp_t -> main_g_RuntimeMeasTyp_t) : M unit :=
  r ← rtm_load index;
  g ← get;
  set_RuntimeMeas (<[Z.to_nat index := f r]> (main_g_RuntimeMeas_s g)).

Definition with_currentCycle (v : Z) (r : main_g_RuntimeMeasTyp_t) :=
  RuntimeMeas v (minCycle_u32 r) (maxCycle_u32 r).
Definition with_minCycle (v : Z) (r : main_g_RuntimeMeasTyp_t) :=
  RuntimeMeas (currentCycle_u32 r) v (maxCycle_u32 r).
Definition with_maxCycle (v : Z) (r : main_g_RuntimeMeasTyp_t) :=
  RuntimeMeas (currentCycle_u32 r) (minCycle_u32 r) v.

(** ** Collaborators *)

Definition btn_Init_v : M unit := emit (InitCall btn).
Definition pot_f_Init_v : M unit := emit (InitCall pot).
Definition srv_Init_v : M unit := emit (InitCall srv).

(** The arms of the [switch] in [main_f_Handle_v], cases 0 to 9 and
    [default]. *)
Definition switch_arm (index : Z) : Branch :=
  if index =? 0 then Bound btn
  else if index =? 1 then Bound pot
  else if index =? 2 then Bound srv
  else if index =? 3 then ToBePopulated
  else if index =? 4 then ToBePopulated
  else if index =? 5 then ToBePopulated
  else if index =? 6 then ToBePopulated
  else if index =? 7 then ToBePopulated
  else if index =? 8 then ToBePopulated
  else if index =? 9 then ToBePopulated
  else DefaultArm.

(** ** Runtime measurements *)

(** [main_f_StartRTM_v]: [return micros();] converted to [uint32_t]. *)
Definition main_f_StartRTM_v (micros : Z) : M Z := mret (u32 micros).

(** [main_f_StopRTM_v]: [return micros() - rtmStart;] converted to
    [uint32_t]. *)
Definition main_f_StopRTM_v (micros : Z) (rtmStart : Z) : M Z :=
  mret (u32 (micros - rtmStart)).

(** [main_f_HandleRTMStats_v] *)
Definition main_f_HandleRTMStats_v (index : Z) : M unit :=
  (* Keep track of max execution time *)
  r ← rtm_load index;
  when (maxCycle_u32 r <? currentCycle_u32 r)
       (rtm_modify index (fun r => with_maxCycle (currentCycle_u32 r) r));;
  (* Keep track of min execution time *)
  r ← rtm_load index;
  when (currentCycle_u32 r <? minCycle_u32 r)
       (rtm_modify index (fun r => with_minCycle (currentCycle_u32 r) r));;
  (* In case the execution time is 0 *)
  r ← rtm_load index;
  when (minCycle_u32 r =? 0)
       (rtm_modify index (fun r => with_minCycle (currentCycle_u32 r) r)).

(** The three values [micros()] returns during one call of
    [main_f_Handle_v]: at its first statement, inside [main_f_StartRTM_v]
    and inside [main_f_StopRTM_v].  The last two are read only when the
    slot fires. *)
Record Clock : Type := MkClock {
  at_poll : Z;
  at_start : Z;
  at_stop : Z
}.

Section MainOS.

(** [MAIN_CYCLE_TASK_COUNT] and [main_g_CycleTaskLengthUs_u16] are
    declared in headers that are not part of the sources at hand
    ([main_i.h], [config/project.h]); they are parameters here.
    [main_e.h] gives [main_c_CycleTaskCount_u8 = 10] and
    [main_c_CycleTaskLengthUs_u16 = 1000 * 10 / 10]. *)
Variable MAIN_CYCLE_TASK_COUNT : Z.
Variable main_g_CycleTaskLengthUs_u16 : Z.

(** The loop of [main_f_Init_v],
    [for(i = 0; i < MAIN_CYCLE_TASK_COUNT; i++)] with [uint16_t i],
    entered with the counter at [i]. *)
Fixpoint init_loop (fuel : nat) (i : Z) : M unit :=
  if i <? MAIN_CYCLE_TASK_COUNT then
    match fuel with
    | O => timeout
    | S fuel' =>
        rtm_modify i (with_currentCycle 0);;
        rtm_modify i (with_maxCycle 0);;
        rtm_modify i (with_minCycle 0);;
        init_loop fuel' (u16 (i + 1))
    end
  else mret tt.

(** [main_f_Init_v] (without [SERIAL_DEBUG]) *)
Definition main_f_Init_v (fuel : nat) : M unit :=
  (* Prepare runtime measurement buffer *)
  init_loop fuel 0;;
  (* Call all the initialization functions *)
  btn_Init_v;;
  pot_f_Init_v;;
  srv_Init_v.

(** [main_f_Handle_v] *)
Definition main_f_Handle_v (clk : Clock) : M unit :=
  (* Get current time *)
  set_CurrMicros (u64 (at_poll clk));;
  g ← get;
  (* If more than X us have passed, call the handle functions *)
  if main_g_CycleTaskLengthUs_u16
       <=? u64 (main_g_CurrMicros_u64 g - main_g_LastMicros_u64 g) then
    (* Keep track of the last task time *)
    set_LastMicros (main_g_CurrMicros_u64 g);;
    (* Start of runtime measurement *)
    l_RtmMeas_u32 ← main_f_StartRTM_v (at_start clk);
    (* Call the right handle functions for this task *)
    g ← get;
    emit (Dispatch (main_g_CurrTaskIndex_u16 g)
                   (switch_arm (main_g_CurrTaskIndex_u16 g)));;
    (* Calculate current task execution time *)
    d ← main_f_StopRTM_v (at_stop clk) l_RtmMeas_u32;
    g ← get;
    rtm_modify (main_g_CurrTaskIndex_u16 g) (with_currentCycle d);;
    (* Calculate rest of the statistics for runtime measurement *)
    g ← get;
    main_f_HandleRTMStats_v (main_g_CurrTaskIndex_u16 g);;
    (* Keep track of which task we're in *)
    g ← get;
    set_CurrTaskIndex (u16 (main_g_CurrTaskIndex_u16 g + 1));;
    g ← get;
    when (MAIN_CYCLE_TASK_COUNT <=? main_g_CurrTaskIndex_u16 g)
         (set_CurrTaskIndex 0)
  else mret tt.

(** [loop()] called once per element of [clks]. *)
Fixpoint run_ticks (clks : list Clock) : M unit :=
  match clks with
  | [] => mret tt
  | clk :: rest => main_f_Handle_v clk;; run_ticks rest
  end.

End MainOS.

(** The globals as the static initialisers of [main.cpp] leave them,
    with the (statically allocated) measurement buffer holding [buf]. *)
Definition boot (buf : list main_g_RuntimeMeasTyp_t) : Globals :=
  MkGlobals 0 0 0 buf [].

(** ** Derived definitions used in the statements *)

(** One record operation of the ledger, as [main_f_Handle_v] performs it
    (main.cpp, lines 196 to 199): the store into [currentCycle_u32]
    followed by [main_f_HandleRTMStats_v]. *)
Definition rtm_record (index d : Z) : M unit :=
  rtm_modify index (with_currentCycle d);;
  main_f_HandleRTMStats_v index.

(** The effect of one record operation on the record it addresses. *)
Definition record_step (d : Z) (r : main_g_RuntimeMeasTyp_t)
  : main_g_RuntimeMeasTyp_t :=
  let r1 := with_currentCycle d r in
  let r2 := if maxCycle_u32 r1 <? currentCycle_u32 r1
            then with_maxCycle (currentCycle_u32 r1) r1 else r1 in
  let r3 := if currentCycle_u32 r2 <? minCycle_u32 r2
            then with_minCycle (currentCycle_u32 r2) r2 else r2 in
  if minCycle_u32 r3 =? 0 then with_minCycle (currentCycle_u32 r3) r3 else r3.

(** The elapsed time [main_g_CurrMicros_u64 - main_g_LastMicros_u64] that
    [main_f_Handle_v] compares, for a clock reading [now]. *)
Definition elapsed (now : Z) (g : Globals) : Z :=
  u64 (u64 now - main_g_LastMicros_u64 g).

(** The task index after [main_g_CurrTaskIndex_u16++] and the reset. *)
Definition next_index (count index : Z) : Z :=
  if count <=? u16 (index + 1) then 0 else u16 (index + 1).

(** Slots of the [Dispatch] events of a trace, in order. *)
Fixpoint dispatched (tr : list Event) : list Z :=
  match tr with
  | [] => []
  | Dispatch slot _ :: rest => slot :: dispatched rest
  | InitCall _ :: rest => dispatched rest
  end.

(** The arms taken by the [Dispatch] events of a trace, in order. *)
Fixpoint arms (tr : list Event) : list Branch :=
  match tr with
  | [] => []
  | Dispatch _ arm :: rest => arm :: arms rest
  | InitCall _ :: rest => arms rest
  end.

(** The round-robin order [0, 1, ..., count-1, 0, 1, ...], [n] slots long. *)
Definition round_robin (count : Z) (n : nat) : list Z :=
  map (fun k => Z.of_nat k mod count) (seq 0 n).

Definition zero_record : main_g_RuntimeMeasTyp_t := RuntimeMeas 0 0 0.

(** A measurement buffer as declared: [MAIN_CYCLE_TASK_COUNT] records. *)
Definition buffer_ok (count : Z) (g : Globals) : Prop :=
  Z.of_nat (length (main_g_RuntimeMeas_s g)) = count.

(** The globals with the record of slot [i] replaced by [x]. *)
Definition set_slot (i : nat) (x : main_g_RuntimeMeasTyp_t) (g : Globals)
  : Globals :=
  MkGlobals (main_g_CurrMicros_u64 g) (main_g_LastMicros_u64 g)
            (main_g_CurrTaskIndex_u16 g)
            (<[i := x]> (main_g_RuntimeMeas_s g)) (calls g).

(** The globals with the whole measurement buffer replaced by [a]. *)
Definition with_RuntimeMeas (a : list main_g_RuntimeMeasTyp_t) (g : Globals)
  : Globals :=
  MkGlobals (main_g_CurrMicros_u64 g) (main_g_LastMicros_u64 g)
            (main_g_CurrTaskIndex_u16 g) a (calls g).

(** The globals after a call of [main_f_Handle_v] that does not fire. *)
Definition idle_state (clk : Clock) (g : Globals) : Globals :=
  MkGlobals (u64 (at_poll clk)) (main_g_LastMicros_u64 g)
            (main_g_CurrTaskIndex_u16 g) (main_g_RuntimeMeas_s g) (calls g).

(** The globals after a call of [main_f_Handle_v] that fires, [r] being
    the record of the current slot before the call. *)
Definition fired_state (count : Z) (clk : Clock)
    (r : main_g_RuntimeMeasTyp_t) (g : Globals) : Globals :=
  MkGlobals (u64 (at_poll clk)) (u64 (at_poll clk))
            (next_index count (main_g_CurrTaskIndex_u16 g))
            (<[Z.to_nat (main_g_CurrTaskIndex_u16 g) :=
                 record_step (u32 (at_stop clk - u32 (at_start clk))) r]>
               (main_g_RuntimeMeas_s g))
            (calls g ++ [Dispatch (main_g_CurrTaskIndex_u16 g)
                                  (switch_arm (main_g_CurrTaskIndex_u16 g))]).

(** The globals [main_f_Init_v] returns. *)
Definition initialized (count : Z) : Globals :=
  MkGlobals 0 0 0 (replicate (Z.to_nat count) zero_record)
            [InitCall btn; InitCall pot; InitCall srv].

(** [setup()], then [loop()] once per element of [clks]. *)
Definition firmware (count slot_len : Z) (fuel : nat) (clks : list Clock)
  : M unit :=
  main_f_Init_v count fuel;;
  run_ticks count slot_len clks.

(** Number of switch arms other than [default]: the slots the dispatch
    table of [main_f_Handle_v] provides. *)
Definition registry_length : Z := 10.

(** A state the scheduler can be in: the task index addresses a record of
    the measurement buffer, which has [count] records. *)
Definition state_ok (count : Z) (g : Globals) : Prop :=
  buffer_ok count g /\ 0 <= main_g_CurrTaskIndex_u16 g < count.

(** Clock readings of successive calls of [main_f_Handle_v]: each reading
    is a [uint64_t] value, not below the previous one [prev], and at least
    [slot_len] after it. *)
Fixpoint spaced (slot_len prev : Z) (clks : list Clock) : Prop :=
  match clks with
  | [] => True
  | clk :: rest =>
      Word.fits 64 (at_poll clk) /\ prev <= at_poll clk /\
      slot_len <= at_poll clk - prev /\
      spaced slot_len (at_poll clk) rest
  end.

(** The same for a whole run: nothing is asked of the first reading but to
    be a [uint64_t] value. *)
Definition well_spaced (slot_len : Z) (clks : list Clock) : Prop :=
  match clks with
  | [] => True
  | clk :: rest => Word.fits 64 (at_poll clk) /\ spaced slot_len (at_poll clk) rest
  end.

(** Number of calls that fire in a well spaced run that starts with
    [main_g_LastMicros_u64 = 0]: all of them, but for a first call that
    comes before [slot_len]. *)
Definition fired_count (slot_len : Z) (clks : list Clock) : nat :=
  match clks with
  | [] => O
  | clk :: rest => if slot_len <=? at_poll clk then S (length rest) else length rest
  end.

(** A sequence of record operations [(index, duration)]. *)
Fixpoint run_records (ops : list (Z * Z)) : M unit :=
  match ops with
  | [] => mret tt
  | (index, d) :: rest => rtm_record index d;; run_records rest
  end.

(** The durations recorded for [slot] by [ops], oldest first. *)
Fixpoint durations_of (slot : Z) (ops : list (Z * Z)) : list Z :=
  match ops with
  | [] => []
  | (index, d) :: rest =>
      if index =? slot then d :: durations_of slot rest
      else durations_of slot rest
  end.

(** [m] is the maximum of the non-empty list [ds]. *)
Definition is_max (m : Z) (ds : list Z) : Prop :=
  In m ds /\ Forall (fun d => d <= m) ds.

(** What the ledger promises of a record after the durations [ds]. *)
Definition tracked (ds : list Z) (r : main_g_RuntimeMeasTyp_t) : Prop :=
  minCycle_u32 r <= currentCycle_u32 r <= maxCycle_u32 r /\
  (ds = [] -> r = zero_record) /\
  (ds <> [] -> is_max (maxCycle_u32 r) ds).

(** The operations of [ops] address records of the buffer of [g] and
    record [uint32_t] durations. *)
Definition ops_ok (g : Globals) (ops : list (Z * Z)) : Prop :=
  Forall (fun op : Z * Z =>
            0 <= fst op < Z.of_nat (length (main_g_RuntimeMeas_s g)) /\
            Word.fits 32 (snd op)) ops.

(** ** Further definitions: the ledger slot by slot *)

(** The record of a slot after the durations [ds] were recorded for it,
    oldest first, starting from [r]. *)
Definition record_all (ds : list Z) (r : main_g_RuntimeMeasTyp_t)
  : main_g_RuntimeMeasTyp_t :=
  fold_left (fun acc d => record_step d acc) ds r.

(** [m] is the minimum of the non-empty list [ds]. *)
Definition is_min (m : Z) (ds : list Z) : Prop :=
  In m ds /\ Forall (fun d => m <= d) ds.

(** A record whose fields are [uint32_t] values in the order
    [minCycle_u32 <= currentCycle_u32 <= maxCycle_u32]. *)
Definition record_in_range (r : main_g_RuntimeMeasTyp_t) : Prop :=
  Word.fits 32 (currentCycle_u32 r) /\ Word.fits 32 (minCycle_u32 r) /\
  Word.fits 32 (maxCycle_u32 r) /\
  minCycle_u32 r <= currentCycle_u32 r <= maxCycle_u32 r.

(** Globals whose scalars are values of their C++ types and whose records
    are in range. *)
Definition globals_in_range (g : Globals) : Prop :=
  Word.fits 64 (main_g_CurrMicros_u64 g) /\
  Word.fits 64 (main_g_LastMicros_u64 g) /\
  Word.fits 16 (main_g_CurrTaskIndex_u16 g) /\
  Forall record_in_range (main_g_RuntimeMeas_s g).

(** Clock readings that are [uint64_t] values and never decrease, the
    first one not below [prev]. *)
Fixpoint monotone_from (prev : Z) (clks : list Clock) : Prop :=
  match clks with
  | [] => True
  | clk :: rest =>
      Word.fits 64 (at_poll clk) /\ prev <= at_poll clk /\
      monotone_from (at_poll clk) rest
  end.

(** The reading of the last call of [clks], [prev] if there is none. *)
Fixpoint latest (prev : Z) (clks : list Clock) : Z :=
  match clks with
  | [] => prev
  | clk :: rest => latest (at_poll clk) rest
  end.

(** The events of the first [n] dispatches in round-robin order. *)
Definition round_robin_events (count : Z) (n : nat) : list Event :=
  map (fun i => Dispatch i (switch_arm i)) (round_robin count n).

(** ** Serial debug *)

(** What one pass of [main_f_SerialDebug_v] sends out: [Serial.print] and
    [Serial.println] of a text or of an unsigned number, the debug
    function of a collaborator, and [vTaskDelay(MAIN_SERIAL_DEBUG_DELAY)]. *)
Inductive Output : Type :=
| Print (s : string)
| PrintNum (n : Z)
| Println (s : string)
| PrintlnNum (n : Z)
| DebugCall (c : Component)
| TaskDelay.

Section SerialDebug.

Variable MAIN_CYCLE_TASK_COUNT : Z.

(** The loop [for(i = 0; i < MAIN_CYCLE_TASK_COUNT; i++)] of
    [main_f_SerialDebug_v], with [uint16_t i], entered with the counter at
    [i]; the result is what the loop prints. *)
Fixpoint debug_loop (fuel : nat) (i : Z) : M (list Output) :=
  if i <? MAIN_CYCLE_TASK_COUNT then
    match fuel with
    | O => timeout
    | S fuel' =>
        rc ← rtm_load i;
        rn ← rtm_load i;
        rx ← rtm_load i;
        rest ← debug_loop fuel' (u16 (i + 1));
        mret ([Print "    ├─["; PrintNum i;
               Print "] curr: "; PrintNum (currentCycle_u32 rc);
               Print ", min: "; PrintNum (minCycle_u32 rn);
               Print ", max: "; PrintlnNum (maxCycle_u32 rx)] ++ rest)
    end
  else mret [].

(** One pass of the [while(1)] loop of [main_f_SerialDebug_v]. *)
Definition main_f_SerialDebug_pass (fuel : nat) : M (list Output) :=
  rows ← debug_loop fuel 0;
  mret ([Println "----------------------------------------";
         Println " > runtimes (in microseconds):"]
        ++ rows
        ++ [DebugCall btn; DebugCall pot; DebugCall srv; TaskDelay]).

(** [main_f_SerialDebug_v], stopped after [passes] passes of its loop. *)
Fixpoint main_f_SerialDebug_v (passes fuel : nat) : M (list Output) :=
  match passes with
  | O => mret []
  | S passes' =>
      out ← main_f_SerialDebug_pass fuel;
      rest ← main_f_SerialDebug_v passes' fuel;
      mret (out ++ rest)
  end.

End SerialDebug.

(** The line [main_f_SerialDebug_v] prints for slot [i] holding [r]. *)
Definition debug_row (i : Z) (r : main_g_RuntimeMeasTyp_t) : list Output :=
  [Print "    ├─["; PrintNum i;
   Print "] curr: "; PrintNum (currentCycle_u32 r);
   Print ", min: "; PrintNum (minCycle_u32 r);
   Print ", max: "; PrintlnNum (maxCycle_u32 r)].

(** The lines for the slots [i, i+1, ...] holding the records [rs]. *)
Fixpoint debug_rows (i : Z) (rs : list main_g_RuntimeMeasTyp_t) : list Output :=
  match rs with
  | [] => []
  | r :: rest => debug_row i r ++ debug_rows (i + 1) rest
  end.

(** The text of one pass of [main_f_SerialDebug_v] over the buffer [rs]. *)
Definition debug_pass_output (rs : list main_g_RuntimeMeasTyp_t) : list Output :=
  [Println "----------------------------------------";
   Println " > runtimes (in microseconds):"]
  ++ debug_rows 0 rs
  ++ [DebugCall btn; DebugCall pot; DebugCall srv; TaskDelay].

(** ** Calls of the collaborator handles *)

Definition Component_eqb (c1 c2 : Component) : bool :=
  match c1, c2 with
  | btn, btn | pot, pot | srv, srv => true
  | _, _ => false
  end.

(** How often the handle function of [c] was called in a trace: the
    dispatches through an arm bound to [c]. *)
Fixpoint handle_calls (c : Component) (tr : list Event) : nat :=
  match tr with
  | [] => O
  | Dispatch _ (Bound c') :: rest =>
      if Component_eqb c c' then S (handle_calls c rest)
      else handle_calls c rest
  | _ :: rest => handle_calls c rest
  end.

(** ** Concrete inputs *)

(** The constants of [main_e.h]. *)
Definition main_c_CycleLengthMS_u8 : Z := 10.
Definition main_c_CycleTaskCount_u8 : Z := 10.
Definition main_c_CycleTaskLengthUs_u16 : Z :=
  u16 (1000 * main_c_CycleLengthMS_u8 / main_c_CycleTaskCount_u8).

(** A buffer for the configuration of [main_e.h], ten slots of 1000
    microseconds, holding values other than zero. *)
Definition ten_records : list main_g_RuntimeMeasTyp_t :=
  replicate 10 (RuntimeMeas 7 8 9).

(** A call at clock value [now] whose handler runs for 3 microseconds. *)
Definition at_time (now : Z) : Clock := MkClock now now (now + 3).

(** [tick(1000), tick(2000), ..., tick(10000)] *)
Definition ten_ticks : list Clock :=
  map at_time [1000; 2000; 3000; 4000; 5000; 6000; 7000; 8000; 9000; 10000].

(** Slot 3 records 50, slot 4 records 20, slot 3 records 80. *)
Definition three_records : list (Z * Z) := [(3, 50); (4, 20); (3, 80)].

(** A state in mid-run: slot 7 is next, the last fire was at 4000. *)
Definition mid_run : Globals :=
  MkGlobals 5000 4000 7 ten_records
            (round_robin_events 10 7).

(** Readings that go up and down. *)
Definition erratic_ticks : list Clock :=
  map at_time [5000; 100; 7000; 7001; 18446744073709551615; 3].

(** ** Facts on fixed-width arithmetic *)

(** The values the concrete inputs below use for the two parameters. *)
Lemma main_e_h_constants :
  main_c_CycleTaskCount_u8 = 10 /\ main_c_CycleTaskLengthUs_u16 = 1000.
Proof. split; reflexivity. Qed.

Lemma wrap_fits bits x : 0 <= bits -> Word.fits bits (Word.wrap bits x).
Proof.
  intros Hb. unfold Word.fits, Word.wrap. apply Z.mod_pos_bound.
  apply Z.pow_pos_nonneg; lia.
Qed.

Lemma wrap_id bits x : Word.fits bits x -> Word.wrap bits x = x.
Proof. unfold Word.fits, Word.wrap. intros H. now apply Z.mod_small. Qed.

(** The wrapped difference of two in-range values, by cases on their
    order: the ordinary difference, or the difference plus one full
    turn of the counter. *)
Lemma wrap_sub_le bits a b :
  Word.fits bits a -> Word.fits bits b -> a <= b -> Word.wrap bits (b - a) = b - a.
Proof. unfold Word.fits. intros Ha Hb Hle. apply wrap_id. unfold Word.fits. lia. Qed.

Lemma wrap_sub_gt bits a b :
  Word.fits bits a -> Word.fits bits b -> b < a ->
  Word.wrap bits (b - a) = b + 2 ^ bits - a.
Proof.
  unfold Word.fits, Word.wrap. intros Ha Hb Hlt.
  replace (b - a) with ((b + 2 ^ bits - a) + (-1) * 2 ^ bits) by ring.
  rewrite Z.mod_add by lia. apply Z.mod_small. lia.
Qed.

(** ** Equations of the monadic operations *)

Ltac run_m :=
  cbv [mbind M_bind mret M_ret get when emit set_CurrMicros
       set_LastMicros set_CurrTaskIndex set_RuntimeMeas timeout].

Lemma rtm_load_some index g r :
  0 <= index ->
  main_g_RuntimeMeas_s g !! Z.to_nat index = Some r ->
  rtm_load index g = Done r g.
Proof.
  intros Hi Hr. unfold rtm_load.
  destruct (index <? 0) eqn:E; [lia|]. now rewrite Hr.
Qed.

Lemma rtm_load_none index g :
  main_g_RuntimeMeas_s g !! Z.to_nat index = None ->
  rtm_load index g = Fault.
Proof.
  intros Hr. unfold rtm_load. destruct (index <? 0); [easy|]. now rewrite Hr.
Qed.

Lemma rtm_modify_some index f g r :
  0 <= index ->
  main_g_RuntimeMeas_s g !! Z.to_nat index = Some r ->
  rtm_modify index f g =
    Done tt (MkGlobals (main_g_CurrMicros_u64 g) (main_g_LastMicros_u64 g)
               (main_g_CurrTaskIndex_u16 g)
               (<[Z.to_nat index := f r]> (main_g_RuntimeMeas_s g))
               (calls g)).
Proof.
  intros Hi Hr. unfold rtm_modify. run_m.
  now rewrite (rtm_load_some index g r).
Qed.

Lemma rtm_modify_none index f g :
  main_g_RuntimeMeas_s g !! Z.to_nat index = None ->
  rtm_modify index f g = Fault.
Proof.
  intros Hr. unfold rtm_modify. run_m. now rewrite rtm_load_none.
Qed.

Lemma rtm_load_set_slot index x g :
  0 <= index ->
  (Z.to_nat index < length (main_g_RuntimeMeas_s g))%nat ->
  rtm_load index (set_slot (Z.to_nat index) x g)
  = Done x (set_slot (Z.to_nat index) x g).
Proof.
  intros Hi Hlt. apply rtm_load_some; [assumption|].
  simpl. now apply list_lookup_insert_eq.
Qed.

Lemma rtm_modify_set_slot index f x g :
  0 <= index ->
  (Z.to_nat index < length (main_g_RuntimeMeas_s g))%nat ->
  rtm_modify index f (set_slot (Z.to_nat index) x g)
  = Done tt (set_slot (Z.to_nat index) (f x) g).
Proof.
  intros Hi Hlt.
  rewrite (rtm_modify_some index f _ x); [| assumption |].
  - unfold set_slot; simpl. now rewrite list_insert_insert_eq.
  - simpl. now apply list_lookup_insert_eq.
Qed.

Lemma rtm_modify_slot index f g r :
  0 <= index ->
  main_g_RuntimeMeas_s g !! Z.to_nat index = Some r ->
  rtm_modify index f g = Done tt (set_slot (Z.to_nat index) (f r) g).
Proof. intros Hi Hr. now rewrite (rtm_modify_some index f g r). Qed.

(** [main_f_HandleRTMStats_v] on a buffer whose slot [index] holds [x]. *)
Lemma main_f_HandleRTMStats_v_slot index x g :
  0 <= index ->
  (Z.to_nat index < length (main_g_RuntimeMeas_s g))%nat ->
  main_f_HandleRTMStats_v index (set_slot (Z.to_nat index) x g)
  = Done tt (set_slot (Z.to_nat index)
               (record_step (currentCycle_u32 x) x) g).
Proof.
  intros Hi Hlt. unfold main_f_HandleRTMStats_v, record_step.
  destruct x as [c mn mx]. cbv [mbind M_bind when mret M_ret]. simpl.
  rewrite rtm_load_set_slot by assumption. simpl.
  destruct (mx <? c) eqn:Emax.
  - rewrite rtm_modify_set_slot by assumption.
    rewrite rtm_load_set_slot by assumption. simpl.
    destruct (c <? mn) eqn:Emin.
    + rewrite rtm_modify_set_slot by assumption.
      rewrite rtm_load_set_slot by assumption. simpl.
      destruct (c =? 0) eqn:Ez; [|reflexivity].
      now rewrite rtm_modify_set_slot by assumption.
    + rewrite rtm_load_set_slot by assumption. simpl.
      destruct (mn =? 0) eqn:Ez; [|reflexivity].
      now rewrite rtm_modify_set_slot by assumption.
  - rewrite rtm_load_set_slot by assumption. simpl.
    destruct (c <? mn) eqn:Emin.
    + rewrite rtm_modify_set_slot by assumption.
      rewrite rtm_load_set_slot by assumption. simpl.
      destruct (c =? 0) eqn:Ez; [|reflexivity].
      now rewrite rtm_modify_set_slot by assumption.
    + rewrite rtm_load_set_slot by assumption. simpl.
      destruct (mn =? 0) eqn:Ez; [|reflexivity].
      now rewrite rtm_modify_set_slot by assumption.
Qed.

Lemma set_slot_same i x g :
  main_g_RuntimeMeas_s g !! i = Some x -> set_slot i x g = g.
Proof.
  intros Hx. destruct g as [cm lm ix a tr]. unfold set_slot; simpl in *.
  now rewrite list_insert_id.
Qed.

Lemma main_f_HandleRTMStats_v_some index x g :
  0 <= index ->
  main_g_RuntimeMeas_s g !! Z.to_nat index = Some x ->
  main_f_HandleRTMStats_v index g
  = Done tt (set_slot (Z.to_nat index)
               (record_step (currentCycle_u32 x) x) g).
Proof.
  intros Hi Hx.
  rewrite <- (set_slot_same (Z.to_nat index) x g Hx) at 1.
  apply main_f_HandleRTMStats_v_slot; [assumption|].
  eapply lookup_lt_Some; eassumption.
Qed.

(** One record operation inside the buffer. *)
Lemma rtm_record_some index d g r :
  0 <= index ->
  main_g_RuntimeMeas_s g !! Z.to_nat index = Some r ->
  rtm_record index d g
  = Done tt (set_slot (Z.to_nat index) (record_step d r) g).
Proof.
  intros Hi Hr.
  assert (Hlt : (Z.to_nat index < length (main_g_RuntimeMeas_s g))%nat)
    by (eapply lookup_lt_Some; eassumption).
  unfold rtm_record. cbv [mbind M_bind].
  rewrite (rtm_modify_slot index _ g r) by assumption.
  now rewrite main_f_HandleRTMStats_v_slot.
Qed.

(** One record operation outside the buffer. *)
Lemma rtm_record_none index d g :
  main_g_RuntimeMeas_s g !! Z.to_nat index = None ->
  rtm_record index d g = Fault.
Proof.
  intros Hr. unfold rtm_record. cbv [mbind M_bind].
  now rewrite rtm_modify_none.
Qed.

(** ** Equations of [main_f_Handle_v] *)

Section HandleEquations.

Variable count : Z.
Variable slot_len : Z.

#[local] Abbreviation Handle := (main_f_Handle_v count slot_len).

(** Less than a slot length elapsed: only [main_g_CurrMicros_u64] is
    written. *)
Lemma Handle_idle clk g :
  elapsed (at_poll clk) g < slot_len ->
  Handle clk g = Done tt (idle_state clk g).
Proof.
  unfold elapsed. intros Hlt. unfold main_f_Handle_v. run_m. simpl.
  destruct (slot_len <=? _) eqn:E; [lia | reflexivity].
Qed.

(** A slot length elapsed and the task index inside the buffer. *)
Lemma Handle_fire clk g r :
  slot_len <= elapsed (at_poll clk) g ->
  0 <= main_g_CurrTaskIndex_u16 g ->
  main_g_RuntimeMeas_s g !! Z.to_nat (main_g_CurrTaskIndex_u16 g) = Some r ->
  Handle clk g = Done tt (fired_state count clk r g).
Proof.
  unfold elapsed. intros Hge Hi Hr.
  assert (Hlt : (Z.to_nat (main_g_CurrTaskIndex_u16 g)
                 < length (main_g_RuntimeMeas_s g))%nat)
    by (eapply lookup_lt_Some; eassumption).
  unfold main_f_Handle_v, main_f_StartRTM_v, main_f_StopRTM_v.
  run_m. simpl.
  destruct (slot_len <=? _) eqn:E; [|lia].
  erewrite rtm_modify_slot; [| exact Hi | exact Hr].
  unfold set_slot; simpl.
  erewrite main_f_HandleRTMStats_v_some;
    [| exact Hi | simpl; apply list_lookup_insert_eq; exact Hlt].
  unfold fired_state, next_index, set_slot; simpl.
  rewrite list_insert_insert_eq.
  destruct (count <=? _); reflexivity.
Qed.

(** A slot length elapsed and the task index outside the buffer. *)
Lemma Handle_fire_outside clk g :
  slot_len <= elapsed (at_poll clk) g ->
  main_g_RuntimeMeas_s g !! Z.to_nat (main_g_CurrTaskIndex_u16 g) = None ->
  Handle clk g = Fault.
Proof.
  unfold elapsed. intros Hge Hr.
  unfold main_f_Handle_v, main_f_StartRTM_v, main_f_StopRTM_v.
  run_m. simpl.
  destruct (slot_len <=? _) eqn:E; [|lia].
  now rewrite rtm_modify_none.
Qed.

End HandleEquations.

(** ** Equations of [main_f_Init_v] *)

Lemma u16_small x : 0 <= x <= 65535 -> u16 x = x.
Proof. intros H. apply wrap_id. unfold Word.fits. lia. Qed.

Lemma with_RuntimeMeas_same g : with_RuntimeMeas (main_g_RuntimeMeas_s g) g = g.
Proof. now destruct g. Qed.

Section InitEquations.

Variable count : Z.
Hypothesis count_u16 : 0 <= count <= 65535.

(** From the counter at [i], with [k] records left, the loop zeroes the
    records [i .. count-1] and stops, if it has fuel for [k] rounds. *)
Lemma init_loop_zeroes (k : nat) :
  forall (i : Z) (g : Globals) (fuel : nat),
    0 <= i -> i + Z.of_nat k = count -> buffer_ok count g ->
    (k <= fuel)%nat ->
    init_loop count fuel i g
    = Done tt (with_RuntimeMeas
                 (take (Z.to_nat i) (main_g_RuntimeMeas_s g)
                  ++ replicate k zero_record) g).
Proof.
  unfold buffer_ok.
  induction k as [|k IH]; intros i g fuel Hi Hk Hbuf Hfuel.
  - assert (i = count) by lia; subst i.
    destruct fuel; simpl; rewrite Z.ltb_irrefl; cbv [mret M_ret];
      rewrite app_nil_r, take_ge by lia;
      now rewrite with_RuntimeMeas_same.
  - destruct fuel as [|fuel]; [lia|]. simpl.
    destruct (i <? count) eqn:E; [|lia].
    destruct (lookup_lt_is_Some_2 (main_g_RuntimeMeas_s g) (Z.to_nat i))
      as [r Hr]; [lia|].
    assert (Hlt : (Z.to_nat i < length (main_g_RuntimeMeas_s g))%nat) by lia.
    cbv [mbind M_bind].
    rewrite (rtm_modify_slot i _ g r) by assumption.
    rewrite rtm_modify_set_slot by assumption.
    rewrite rtm_modify_set_slot by assumption.
    rewrite u16_small by lia.
    rewrite IH; [| lia | lia | simpl; rewrite length_insert; lia | lia].
    unfold with_RuntimeMeas, set_slot; simpl. do 2 f_equal.
    replace (Z.to_nat (i + 1)) with (S (Z.to_nat i)) by lia.
    erewrite take_S_r by (apply list_lookup_insert_eq; exact Hlt).
    rewrite take_insert_ge by lia.
    now rewrite <- app_assoc.
Qed.

(** [main_f_Init_v] returns, with the buffer zeroed and the three
    collaborators initialised in order. *)
Lemma main_f_Init_v_boot (buf : list main_g_RuntimeMeasTyp_t) (fuel : nat) :
  Z.of_nat (length buf) = count ->
  (Z.to_nat count <= fuel)%nat ->
  main_f_Init_v count fuel (boot buf) = Done tt (initialized count).
Proof.
  intros Hlen Hfuel. unfold main_f_Init_v. cbv [mbind M_bind].
  rewrite (init_loop_zeroes (Z.to_nat count)); [| lia | lia | exact Hlen | lia].
  reflexivity.
Qed.

End InitEquations.

(** ** The runtime measurement ledger *)

Lemma record_step_fields d r :
  currentCycle_u32 (record_step d r) = d /\
  maxCycle_u32 (record_step d r) = Z.max (maxCycle_u32 r) d /\
  minCycle_u32 (record_step d r) <= d.
Proof.
  destruct r as [c mn mx]. unfold record_step; simpl.
  destruct (mx <? d) eqn:Emax; simpl;
    destruct (d <? mn) eqn:Emin; simpl;
    try rewrite Z.eqb_refl; simpl;
    try (destruct (mn =? 0) eqn:Ez; simpl);
    try (destruct (d =? 0) eqn:Ed; simpl);
    repeat split; lia.
Qed.

Lemma is_max_snoc m ds d :
  is_max m ds -> is_max (Z.max m d) (ds ++ [d]).
Proof.
  intros [Hin Hall]. split.
  - apply in_or_app. destruct (Z.max_spec m d) as [[_ ->]|[_ ->]].
    + right. now left.
    + now left.
  - rewrite Forall_app. split.
    + eapply Forall_impl; [exact Hall|]. intros x Hx. simpl in Hx. lia.
    + constructor; [lia | constructor].
Qed.

(** A record operation keeps the promise of the ledger. *)
Lemma record_step_tracked ds d r :
  0 <= d -> tracked ds r -> tracked (ds ++ [d]) (record_step d r).
Proof.
  intros Hd (Hord & Hnil & Hmax).
  destruct (record_step_fields d r) as (Hc & Hm & Hn).
  split; [| split].
  - rewrite Hc, Hm. lia.
  - intros Habs. now destruct ds.
  - intros _. rewrite Hm. destruct ds as [|d0 ds'].
    + rewrite (Hnil eq_refl). simpl. rewrite Z.max_r by assumption.
      split; [now left | constructor; [lia | constructor]].
    + apply is_max_snoc. now apply Hmax.
Qed.

(** C4: a record operation on a slot whose [minCycle_u32] is 0 leaves
    [minCycle_u32] equal to the recorded duration [d], whatever [d] is
    (0 included) and whatever the other two fields hold. *)
Theorem record_replaces_zero_min (index d : Z) (g : Globals)
    (r : main_g_RuntimeMeasTyp_t) :
  0 <= index ->
  main_g_RuntimeMeas_s g !! Z.to_nat index = Some r ->
  minCycle_u32 r = 0 ->
  exists g' r',
    rtm_record index d g = Done tt g' /\
    main_g_RuntimeMeas_s g' !! Z.to_nat index = Some r' /\
    minCycle_u32 r' = d.
Proof.
  intros Hi Hr Hmin.
  exists (set_slot (Z.to_nat index) (record_step d r) g), (record_step d r).
  split; [now apply rtm_record_some | split].
  - simpl. apply list_lookup_insert_eq. eapply lookup_lt_Some; eassumption.
  - destruct r as [c mn mx]. simpl in Hmin. subst mn.
    unfold record_step; simpl.
    destruct (mx <? d); simpl; destruct (d <? 0) eqn:E; simpl;
      try rewrite Z.eqb_refl; simpl; try reflexivity.
    all: destruct (d =? 0); reflexivity.
Qed.

(** The ledger invariant, from any buffer whose slots are tracked for
    histories [h]. *)
Lemma run_records_tracked (ops : list (Z * Z)) :
  forall (g : Globals) (h : Z -> list Z),
    ops_ok g ops ->
    (forall slot r, 0 <= slot ->
       main_g_RuntimeMeas_s g !! Z.to_nat slot = Some r -> tracked (h slot) r) ->
    exists g',
      run_records ops g = Done tt g' /\
      length (main_g_RuntimeMeas_s g') = length (main_g_RuntimeMeas_s g) /\
      forall slot r, 0 <= slot ->
        main_g_RuntimeMeas_s g' !! Z.to_nat slot = Some r ->
        tracked (h slot ++ durations_of slot ops) r.
Proof.
  unfold ops_ok.
  induction ops as [|[index d] rest IH]; intros g h Hops Hinv.
  - exists g. split; [reflexivity | split; [reflexivity|]].
    intros slot r Hs Hr. simpl. rewrite app_nil_r. now apply Hinv.
  - inversion Hops as [|op ops' [Hidx Hd] Hrest]; subst. simpl in Hidx, Hd.
    destruct (lookup_lt_is_Some_2 (main_g_RuntimeMeas_s g) (Z.to_nat index))
      as [r0 Hr0]; [lia|].
    simpl. cbv [mbind M_bind].
    rewrite (rtm_record_some index d g r0) by (lia || assumption).
    set (g1 := set_slot (Z.to_nat index) (record_step d r0) g).
    assert (Hlen1 : length (main_g_RuntimeMeas_s g1)
                    = length (main_g_RuntimeMeas_s g))
      by (unfold g1; simpl; apply length_insert).
    destruct (IH g1 (fun slot => if index =? slot then h slot ++ [d] else h slot))
      as (g' & Hrun & Hlen & Hfin).
    + rewrite Hlen1. exact Hrest.
    + intros slot r Hs Hr. unfold g1 in Hr; simpl in Hr.
      destruct (index =? slot) eqn:E.
      * apply Z.eqb_eq in E; subst slot.
        rewrite list_lookup_insert_eq in Hr by lia.
        injection Hr as <-. apply record_step_tracked.
        -- unfold Word.fits in Hd. lia.
        -- now apply Hinv.
      * apply Z.eqb_neq in E.
        rewrite list_lookup_insert_ne in Hr by lia. now apply Hinv.
    + exists g'. split; [exact Hrun | split; [congruence|]].
      intros slot r Hs Hr. specialize (Hfin slot r Hs Hr). simpl in Hfin.
      destruct (index =? slot); [| exact Hfin].
      now rewrite <- app_assoc in Hfin.
Qed.

(** C3: from a buffer of all-zero records, after every finite sequence of
    record operations (each on a slot of the buffer, with a [uint32_t]
    duration) every record has
    [minCycle_u32 <= currentCycle_u32 <= maxCycle_u32]; a slot for which
    nothing was recorded yet still holds the all-zero record; and for any
    other slot [maxCycle_u32] is the maximum of the durations recorded for
    it.  Every prefix of a sequence is a sequence, so this holds after each
    operation. *)
Theorem ledger_min_current_max (g : Globals) (ops : list (Z * Z)) :
  Forall (fun r => r = zero_record) (main_g_RuntimeMeas_s g) ->
  ops_ok g ops ->
  exists g',
    run_records ops g = Done tt g' /\
    length (main_g_RuntimeMeas_s g') = length (main_g_RuntimeMeas_s g) /\
    forall slot r, 0 <= slot ->
      main_g_RuntimeMeas_s g' !! Z.to_nat slot = Some r ->
      minCycle_u32 r <= currentCycle_u32 r <= maxCycle_u32 r /\
      (durations_of slot ops = [] -> r = zero_record) /\
      (durations_of slot ops <> [] ->
         is_max (maxCycle_u32 r) (durations_of slot ops)).
Proof.
  intros Hzero Hops.
  destruct (run_records_tracked ops g (fun _ => []) Hops) as (g' & Hrun & Hlen & Hfin).
  - intros slot r Hs Hr.
    assert (r = zero_record) as ->.
    { rewrite Forall_forall in Hzero. apply Hzero.
      eapply list_elem_of_lookup_2. exact Hr. }
    split; [simpl; lia | split; [reflexivity | congruence]].
  - exists g'. split; [exact Hrun | split; [exact Hlen|]].
    intros slot r Hs Hr. exact (Hfin slot r Hs Hr).
Qed.

(** ** The cycle scheduler *)

Lemma dispatched_app tr1 tr2 :
  dispatched (tr1 ++ tr2) = dispatched tr1 ++ dispatched tr2.
Proof.
  induction tr1 as [|[c|slot arm] tr1 IH]; simpl; [reflexivity | exact IH |].
  now rewrite IH.
Qed.

Lemma arms_app tr1 tr2 : arms (tr1 ++ tr2) = arms tr1 ++ arms tr2.
Proof.
  induction tr1 as [|[c|slot arm] tr1 IH]; simpl; [reflexivity | exact IH |].
  now rewrite IH.
Qed.

(** The [default] arm is taken exactly outside [0 .. registry_length-1]. *)
Lemma switch_arm_default index :
  switch_arm index = DefaultArm <-> ~ (0 <= index < registry_length).
Proof.
  unfold switch_arm, registry_length.
  repeat match goal with
         | |- context [?a =? ?b] =>
             destruct (Z.eqb_spec a b); [split; [discriminate | lia] |]
         end.
  split; [lia | reflexivity].
Qed.

Section SchedulerFacts.

Variable count : Z.
Variable slot_len : Z.
Hypothesis count_range : 1 <= count <= 65535.

Lemma next_index_mod index :
  0 <= index < count -> next_index count index = (index + 1) mod count.
Proof.
  intros Hi. unfold next_index. rewrite u16_small by lia.
  destruct (count <=? index + 1) eqn:E.
  - assert (index + 1 = count) as -> by lia. now rewrite Z.mod_same by lia.
  - now rewrite Z.mod_small by lia.
Qed.

Lemma state_ok_lookup g :
  state_ok count g ->
  exists r, main_g_RuntimeMeas_s g
              !! Z.to_nat (main_g_CurrTaskIndex_u16 g) = Some r.
Proof.
  intros [Hbuf Hidx]. unfold buffer_ok in Hbuf.
  apply lookup_lt_is_Some_2. lia.
Qed.

Lemma state_ok_fired clk r g :
  state_ok count g -> state_ok count (fired_state count clk r g).
Proof.
  intros [Hbuf Hidx]. split.
  - unfold buffer_ok in *. simpl. now rewrite length_insert.
  - simpl. rewrite next_index_mod by assumption.
    apply Z.mod_pos_bound. lia.
Qed.

(** One call of [main_f_Handle_v] from a state of the scheduler: it
    returns, idle or fired. *)
Lemma Handle_cases clk g :
  state_ok count g ->
  (elapsed (at_poll clk) g < slot_len /\
   main_f_Handle_v count slot_len clk g = Done tt (idle_state clk g)) \/
  (slot_len <= elapsed (at_poll clk) g /\
   exists r,
     main_g_RuntimeMeas_s g !! Z.to_nat (main_g_CurrTaskIndex_u16 g) = Some r /\
     main_f_Handle_v count slot_len clk g
     = Done tt (fired_state count clk r g)).
Proof.
  intros Hok. destruct (Z_lt_le_dec (elapsed (at_poll clk) g) slot_len) as [Hlt|Hge].
  - left. split; [exact Hlt | now apply Handle_idle].
  - right. split; [exact Hge|].
    destruct (state_ok_lookup g Hok) as [r Hr]. exists r.
    split; [exact Hr|]. apply Handle_fire; [exact Hge | | exact Hr].
    destruct Hok as [_ Hidx]. lia.
Qed.

End SchedulerFacts.

(** C2: a call of [main_f_Handle_v] for which the elapsed time
    [main_g_CurrMicros_u64 - main_g_LastMicros_u64] is below the slot
    length returns without calling a collaborator, and leaves
    [main_g_CurrTaskIndex_u16], [main_g_LastMicros_u64] and the whole
    measurement buffer as they were, in every state. *)
Theorem Handle_idle_frame (count slot_len : Z) (clk : Clock) (g : Globals) :
  elapsed (at_poll clk) g < slot_len ->
  exists g',
    main_f_Handle_v count slot_len clk g = Done tt g' /\
    calls g' = calls g /\
    main_g_CurrTaskIndex_u16 g' = main_g_CurrTaskIndex_u16 g /\
    main_g_LastMicros_u64 g' = main_g_LastMicros_u64 g /\
    main_g_RuntimeMeas_s g' = main_g_RuntimeMeas_s g.
Proof.
  intros Hlt. exists (idle_state clk g).
  split; [now apply Handle_idle | repeat split].
Qed.

(** C5: in a state of the scheduler, a call of [main_f_Handle_v] with at
    least a slot length elapsed, however much more, runs the dispatch
    switch exactly once, on the current task index; it stores the clock
    reading of this call in [main_g_LastMicros_u64]; and it moves the task
    index one position round the cycle. *)
Theorem Handle_fires_once (count slot_len : Z) (clk : Clock) (g : Globals) :
  1 <= count <= 65535 ->
  state_ok count g ->
  slot_len <= elapsed (at_poll clk) g ->
  exists g',
    main_f_Handle_v count slot_len clk g = Done tt g' /\
    calls g' = calls g ++ [Dispatch (main_g_CurrTaskIndex_u16 g)
                                    (switch_arm (main_g_CurrTaskIndex_u16 g))] /\
    dispatched (calls g') = dispatched (calls g) ++ [main_g_CurrTaskIndex_u16 g] /\
    main_g_LastMicros_u64 g' = u64 (at_poll clk) /\
    main_g_LastMicros_u64 g' = main_g_CurrMicros_u64 g' /\
    main_g_CurrTaskIndex_u16 g' = (main_g_CurrTaskIndex_u16 g + 1) mod count.
Proof.
  intros Hcount Hok Hge.
  destruct (Handle_cases count slot_len clk g Hok) as [[Hlt _]|[_ (r & Hr & Hrun)]];
    [lia|].
  exists (fired_state count clk r g). split; [exact Hrun|]. simpl.
  repeat split.
  - now rewrite dispatched_app.
  - apply next_index_mod; [exact Hcount | apply Hok].
Qed.

Lemma u64_fits x : Word.fits 64 x -> u64 x = x.
Proof. apply wrap_id. Qed.

(** The elapsed time when the clock has wrapped past zero since the last
    fire. *)
Lemma elapsed_wrapped now g :
  Word.fits 64 (main_g_LastMicros_u64 g) -> Word.fits 64 now ->
  now < main_g_LastMicros_u64 g ->
  elapsed now g = now + 2 ^ 64 - main_g_LastMicros_u64 g.
Proof.
  intros Hlast Hnow Hlt. unfold elapsed. rewrite (u64_fits now) by assumption.
  now apply wrap_sub_gt.
Qed.

(** The elapsed time when the clock has not wrapped. *)
Lemma elapsed_plain now g :
  Word.fits 64 (main_g_LastMicros_u64 g) -> Word.fits 64 now ->
  main_g_LastMicros_u64 g <= now ->
  elapsed now g = now - main_g_LastMicros_u64 g.
Proof.
  intros Hlast Hnow Hle. unfold elapsed. rewrite (u64_fits now) by assumption.
  now apply wrap_sub_le.
Qed.

(** C6: with [main_g_LastMicros_u64] anywhere in the [uint64_t] range and a
    clock reading that has wrapped past zero (so is below it), the elapsed
    time [main_f_Handle_v] compares is the difference modulo 2^64, that is
    the time to the wrap plus the time since; the call fires when that is
    at least the slot length and is idle when it is less. *)
Theorem Handle_wraparound (count slot_len : Z) (clk : Clock) (g : Globals) :
  state_ok count g ->
  Word.fits 64 (main_g_LastMicros_u64 g) ->
  Word.fits 64 (at_poll clk) ->
  at_poll clk < main_g_LastMicros_u64 g ->
  let adjusted := (2 ^ 64 - main_g_LastMicros_u64 g) + at_poll clk in
  elapsed (at_poll clk) g = adjusted /\
  elapsed (at_poll clk) g = (at_poll clk - main_g_LastMicros_u64 g) mod 2 ^ 64 /\
  (slot_len <= adjusted ->
   exists g',
     main_f_Handle_v count slot_len clk g = Done tt g' /\
     calls g' = calls g ++ [Dispatch (main_g_CurrTaskIndex_u16 g)
                                     (switch_arm (main_g_CurrTaskIndex_u16 g))] /\
     main_g_LastMicros_u64 g' = at_poll clk) /\
  (adjusted < slot_len ->
   exists g',
     main_f_Handle_v count slot_len clk g = Done tt g' /\
     calls g' = calls g /\
     main_g_LastMicros_u64 g' = main_g_LastMicros_u64 g /\
     main_g_CurrTaskIndex_u16 g' = main_g_CurrTaskIndex_u16 g).
Proof.
  intros Hok Hlast Hnow Hlt adjusted.
  assert (He : elapsed (at_poll clk) g = adjusted)
    by (rewrite elapsed_wrapped by assumption; unfold adjusted; ring).
  split; [exact He | split; [| split]].
  - unfold elapsed. now rewrite (u64_fits (at_poll clk)) by assumption.
  - intros Hge.
    destruct (Handle_cases count slot_len clk g Hok)
      as [[Hidle _]|[_ (r & Hr & Hrun)]]; [lia|].
    exists (fired_state count clk r g). split; [exact Hrun|]. simpl.
    split; [reflexivity | now apply u64_fits].
  - intros Hidle. exists (idle_state clk g).
    split; [apply Handle_idle; lia | repeat split].
Qed.

Lemma u32_sub_u32 a b : u32 (a - u32 b) = u32 (a - b).
Proof. unfold u32, Word.wrap. now rewrite Zminus_mod_idemp_r. Qed.

(** C10: [main_f_StopRTM_v] returns the difference of the two clock
    readings modulo 2^32, and that is what a firing call of
    [main_f_Handle_v] stores in [currentCycle_u32] of the slot, while its
    elapsed-time test is modulo 2^64; so an execution of 2^32 + k
    microseconds (k < 2^32) is recorded as k. *)
Theorem Handle_records_duration_mod_2_32 (count slot_len : Z) (clk : Clock)
    (g : Globals) :
  state_ok count g ->
  slot_len <= elapsed (at_poll clk) g ->
  (forall stop start g0,
     main_f_StopRTM_v stop start g0 = Done ((stop - start) mod 2 ^ 32) g0) /\
  elapsed (at_poll clk) g
  = (u64 (at_poll clk) - main_g_LastMicros_u64 g) mod 2 ^ 64 /\
  exists g' r',
    main_f_Handle_v count slot_len clk g = Done tt g' /\
    main_g_RuntimeMeas_s g' !! Z.to_nat (main_g_CurrTaskIndex_u16 g) = Some r' /\
    currentCycle_u32 r' = (at_stop clk - at_start clk) mod 2 ^ 32 /\
    (forall k, 0 <= k < 2 ^ 32 ->
       at_stop clk - at_start clk = 2 ^ 32 + k -> currentCycle_u32 r' = k).
Proof.
  intros Hok Hge. split; [reflexivity | split; [reflexivity|]].
  destruct (Handle_cases count slot_len clk g Hok)
    as [[Hidle _]|[_ (r & Hr & Hrun)]]; [lia|].
  exists (fired_state count clk r g),
         (record_step (u32 (at_stop clk - u32 (at_start clk))) r).
  split; [exact Hrun|]. simpl.
  assert (Hcur : currentCycle_u32
                   (record_step (u32 (at_stop clk - u32 (at_start clk))) r)
                 = (at_stop clk - at_start clk) mod 2 ^ 32).
  { destruct (record_step_fields (u32 (at_stop clk - u32 (at_start clk))) r)
      as (-> & _). now rewrite u32_sub_u32. }
  split; [| split; [exact Hcur|]].
  - apply list_lookup_insert_eq. eapply lookup_lt_Some; eassumption.
  - intros k Hk Hdiff. rewrite Hcur, Hdiff.
    replace (2 ^ 32 + k) with (k + 1 * 2 ^ 32) by ring.
    rewrite Z.mod_add by lia. apply Z.mod_small. lia.
Qed.

(** ** Runs of the scheduler *)

Section Runs.

Variable count : Z.
Variable slot_len : Z.
Hypothesis count_range : 1 <= count <= 65535.

(** Any number of calls, whatever the clock reads: every call returns,
    the state stays a state of the scheduler, and the arms taken are
    arms of slots below [count]. *)
Lemma run_ticks_state_ok (clks : list Clock) :
  forall g,
    state_ok count g ->
    exists g',
      run_ticks count slot_len clks g = Done tt g' /\
      state_ok count g' /\
      exists slots,
        calls g' = calls g ++ map (fun i => Dispatch i (switch_arm i)) slots /\
        Forall (fun i => 0 <= i < count) slots.
Proof.
  induction clks as [|clk rest IH]; intros g Hok.
  - exists g. split; [reflexivity | split; [exact Hok|]].
    exists []. simpl. now rewrite app_nil_r.
  - simpl. cbv [mbind M_bind].
    destruct (Handle_cases count slot_len clk g Hok)
      as [[_ Hrun]|[_ (r & Hr & Hrun)]]; rewrite Hrun.
    + destruct (IH (idle_state clk g) Hok) as (g' & Hrest & Hok' & slots & Hcalls & Hall).
      exists g'. split; [exact Hrest | split; [exact Hok'|]].
      now exists slots.
    + destruct (IH (fired_state count clk r g)) as (g' & Hrest & Hok' & slots & Hcalls & Hall).
      { now apply state_ok_fired. }
      exists g'. split; [exact Hrest | split; [exact Hok'|]].
      exists (main_g_CurrTaskIndex_u16 g :: slots). split.
      * rewrite Hcalls. simpl. now rewrite <- app_assoc.
      * constructor; [apply Hok | exact Hall].
Qed.

(** Calls spaced at least a slot length apart, the first one after the
    last fire: every call fires, and the slots go round the cycle from
    the current task index. *)
Lemma run_ticks_all_fire (clks : list Clock) :
  forall g,
    state_ok count g ->
    Word.fits 64 (main_g_LastMicros_u64 g) ->
    spaced slot_len (main_g_LastMicros_u64 g) clks ->
    exists g',
      run_ticks count slot_len clks g = Done tt g' /\
      dispatched (calls g')
      = dispatched (calls g)
        ++ map (fun k => (main_g_CurrTaskIndex_u16 g + Z.of_nat k) mod count)
               (seq 0 (length clks)).
Proof.
  induction clks as [|clk rest IH]; intros g Hok Hlast Hsp.
  - exists g. split; [reflexivity|]. simpl. now rewrite app_nil_r.
  - destruct Hsp as (Hnow & Hmono & Hgap & Hrest).
    simpl run_ticks. cbv [mbind M_bind].
    assert (He : elapsed (at_poll clk) g
                 = at_poll clk - main_g_LastMicros_u64 g)
      by now apply elapsed_plain.
    destruct (Handle_cases count slot_len clk g Hok)
      as [[Hidle _]|[_ (r & Hr & Hrun)]]; [lia|].
    rewrite Hrun.
    destruct (IH (fired_state count clk r g)) as (g' & Hrun' & Htr).
    + now apply state_ok_fired.
    + simpl. now rewrite u64_fits.
    + simpl. now rewrite u64_fits.
    + exists g'. split; [exact Hrun'|].
      rewrite Htr. simpl main_g_CurrTaskIndex_u16. simpl calls.
      rewrite dispatched_app. simpl dispatched. rewrite <- app_assoc.
      f_equal. simpl length. simpl seq. simpl map. simpl app. f_equal.
      * rewrite Z.add_0_r. symmetry. apply Z.mod_small. apply Hok.
      * rewrite <- seq_shift, map_map. apply map_ext. intros k.
        rewrite next_index_mod by (assumption || apply Hok).
        rewrite Zplus_mod_idemp_l. f_equal. lia.
Qed.

Lemma spaced_from_earlier prev prev' clks :
  prev' <= prev -> spaced slot_len prev clks -> spaced slot_len prev' clks.
Proof.
  intros Hle. destruct clks as [|clk rest]; [easy|]. simpl.
  intros (Hnow & Hmono & Hgap & Hrest). repeat split; try apply Hnow; try lia.
  exact Hrest.
Qed.

End Runs.

Lemma dispatched_events slots :
  dispatched (map (fun i => Dispatch i (switch_arm i)) slots) = slots.
Proof. induction slots as [|i slots IH]; simpl; [reflexivity | now rewrite IH]. Qed.

Lemma arms_events slots :
  arms (map (fun i => Dispatch i (switch_arm i)) slots) = map switch_arm slots.
Proof. induction slots as [|i slots IH]; simpl; [reflexivity | now rewrite IH]. Qed.

Lemma state_ok_initialized count : 1 <= count -> state_ok count (initialized count).
Proof.
  intros Hc. split.
  - unfold buffer_ok. simpl. rewrite length_replicate. lia.
  - simpl. lia.
Qed.

(** C9: after [main_f_Init_v] and any number of calls of
    [main_f_Handle_v], whatever the clock reads, no access to
    [main_g_RuntimeMeas_s] was out of bounds (the run returns instead of
    faulting), and [main_g_CurrTaskIndex_u16] is in
    [0, MAIN_CYCLE_TASK_COUNT) and addresses a record of the buffer, for
    every task count from 1 to 65535; with a task count of at most the ten
    arms of the dispatch switch, as in [main_e.h], the [default] arm was
    never taken. *)
Theorem task_index_in_bounds (count slot_len : Z)
    (buf : list main_g_RuntimeMeasTyp_t) (fuel : nat) (clks : list Clock) :
  1 <= count <= 65535 ->
  Z.of_nat (length buf) = count ->
  (Z.to_nat count <= fuel)%nat ->
  exists g,
    firmware count slot_len fuel clks (boot buf) = Done tt g /\
    0 <= main_g_CurrTaskIndex_u16 g < count /\
    is_Some (main_g_RuntimeMeas_s g !! Z.to_nat (main_g_CurrTaskIndex_u16 g)) /\
    (count <= registry_length ->
     Forall (fun arm => arm <> DefaultArm) (arms (calls g))).
Proof.
  intros Hcount Hlen Hfuel.
  unfold firmware. cbv [mbind M_bind].
  rewrite main_f_Init_v_boot by (lia || assumption).
  destruct (run_ticks_state_ok count slot_len Hcount clks (initialized count))
    as (g & Hrun & Hok & slots & Hcalls & Hall).
  { apply state_ok_initialized. lia. }
  exists g. split; [exact Hrun | split; [apply Hok | split]].
  - destruct (state_ok_lookup count g Hok) as [r Hr]. now exists r.
  - intros Harms. rewrite Hcalls, arms_app, arms_events. simpl.
    rewrite Forall_map. eapply Forall_impl; [exact Hall|].
    intros i Hi. simpl in *. rewrite switch_arm_default. lia.
Qed.

(** C1: after [main_f_Init_v], for calls of [main_f_Handle_v] whose clock
    readings are [uint64_t] values, never decrease and are at least a slot
    length apart, the slots dispatched are 0, 1, ..., count-1, 0, 1, ...
    in this order, none skipped and none repeated, one for each call (a
    first call that comes before the first slot length has elapsed since
    clock value 0 dispatches nothing); for every task count from 1 to
    65535. *)
Theorem slots_fire_round_robin (count slot_len : Z)
    (buf : list main_g_RuntimeMeasTyp_t) (fuel : nat) (clks : list Clock) :
  1 <= count <= 65535 ->
  Z.of_nat (length buf) = count ->
  (Z.to_nat count <= fuel)%nat ->
  well_spaced slot_len clks ->
  exists g,
    firmware count slot_len fuel clks (boot buf) = Done tt g /\
    dispatched (calls g) = round_robin count (fired_count slot_len clks).
Proof.
  intros Hcount Hlen Hfuel Hsp.
  unfold firmware. cbv [mbind M_bind].
  rewrite main_f_Init_v_boot by (lia || assumption).
  assert (Hok : state_ok count (initialized count))
    by (apply state_ok_initialized; lia).
  assert (Hzero : Word.fits 64 0) by (unfold Word.fits; lia).
  destruct clks as [|clk rest].
  - exists (initialized count). split; reflexivity.
  - destruct Hsp as [Hnow Hrest]. unfold fired_count.
    destruct (slot_len <=? at_poll clk) eqn:E.
    + destruct (run_ticks_all_fire count slot_len Hcount (clk :: rest)
                  (initialized count) Hok Hzero) as (g & Hrun & Htr).
      { apply Z.leb_le in E. simpl.
        split; [exact Hnow | unfold Word.fits in Hnow].
        split; [lia | split; [lia | exact Hrest]]. }
      exists g. split; [exact Hrun|]. rewrite Htr. reflexivity.
    + simpl run_ticks. cbv [mbind M_bind].
      rewrite Handle_idle.
      2:{ apply Z.leb_gt in E.
          rewrite elapsed_plain; simpl; unfold Word.fits in *; lia. }
      destruct (run_ticks_all_fire count slot_len Hcount rest
                  (idle_state clk (initialized count)) Hok Hzero) as (g & Hrun & Htr).
      { simpl. apply (spaced_from_earlier slot_len (at_poll clk)); [|exact Hrest].
        unfold Word.fits in Hnow. lia. }
      exists g. split; [exact Hrun|]. rewrite Htr. reflexivity.
Qed.

(** ** Initialisation *)

(** C8, as amended: when [main_f_Init_v] returns, every record of the
    measurement buffer is all zero, [main_g_CurrTaskIndex_u16] is 0, and
    [main_g_LastMicros_u64] is 0, the value of its static initialiser:
    [main_f_Init_v] does not read the clock. *)
Theorem Init_state (count : Z) (buf : list main_g_RuntimeMeasTyp_t)
    (fuel : nat) :
  0 <= count <= 65535 ->
  Z.of_nat (length buf) = count ->
  (Z.to_nat count <= fuel)%nat ->
  exists g,
    main_f_Init_v count fuel (boot buf) = Done tt g /\
    Z.of_nat (length (main_g_RuntimeMeas_s g)) = count /\
    Forall (fun r => currentCycle_u32 r = 0 /\ minCycle_u32 r = 0 /\
                     maxCycle_u32 r = 0) (main_g_RuntimeMeas_s g) /\
    main_g_CurrTaskIndex_u16 g = 0 /\
    main_g_LastMicros_u64 g = 0.
Proof.
  intros Hcount Hlen Hfuel. exists (initialized count).
  split; [now apply main_f_Init_v_boot | simpl].
  split; [rewrite length_replicate; lia | split; [| split; reflexivity]].
  apply Forall_replicate. repeat split.
Qed.

(** ** The claims at concrete inputs *)

(** C7, as stated, fails.  The dispatch switch has ten arms.  With a task
    count of 8, and with a task count of 12, [main_f_Init_v] returns
    normally and the scheduler runs; with 12 the slots 10 and 11 are
    dispatched through the [default] arm. *)
Lemma Init_accepts_count_mismatch :
  8 <> registry_length /\
  main_f_Init_v 8 8 (boot (replicate 8 zero_record)) = Done tt (initialized 8) /\
  12 <> registry_length /\
  main_f_Init_v 12 12 (boot (replicate 12 zero_record))
  = Done tt (initialized 12) /\
  exists g,
    firmware 12 1000 12 (ten_ticks ++ map at_time [11000; 12000])
             (boot (replicate 12 zero_record)) = Done tt g /\
    dispatched (calls g) = [0; 1; 2; 3; 4; 5; 6; 7; 8; 9; 10; 11] /\
    arms (calls g)
    = [Bound btn; Bound pot; Bound srv; ToBePopulated; ToBePopulated;
       ToBePopulated; ToBePopulated; ToBePopulated; ToBePopulated;
       ToBePopulated; DefaultArm; DefaultArm].
Proof.
  split; [discriminate | split; [reflexivity|]].
  split; [discriminate | split; [reflexivity|]].
  eexists. split; [vm_compute; reflexivity | split; reflexivity].
Qed.

(** C8, as stated, fails: [main_g_LastMicros_u64] after [main_f_Init_v] is
    not the clock reading at initialisation.  Were it so for every reading
    [now], it would be so for 5000. *)
Lemma Init_last_fire_is_not_the_clock :
  ~ (forall (now : Z) (g : Globals),
       Word.fits 64 now ->
       main_f_Init_v 10 10 (boot ten_records) = Done tt g ->
       main_g_CurrTaskIndex_u16 g = 0 /\ main_g_LastMicros_u64 g = now).
Proof.
  intros Hclaim.
  destruct (Hclaim 5000 (initialized 10)) as [_ Habs].
  - unfold Word.fits. lia.
  - reflexivity.
  - discriminate Habs.
Qed.

(** With the clock at 5000 when [main_f_Init_v] runs, a first call of
    [main_f_Handle_v] one microsecond later fires: the elapsed time is
    counted from clock value 0. *)
Example first_tick_counts_from_zero :
  exists g,
    firmware 10 1000 10 [at_time 5001] (boot ten_records) = Done tt g /\
    dispatched (calls g) = [0].
Proof. eexists. split; [vm_compute; reflexivity | reflexivity]. Qed.

(** Scenario A: ten calls 1000 microseconds apart fire slots 0 to 9. *)
Lemma slots_fire_round_robin_scenario_A :
  exists g,
    firmware 10 1000 10 ten_ticks (boot ten_records) = Done tt g /\
    dispatched (calls g) = round_robin 10 (fired_count 1000 ten_ticks).
Proof.
  apply (slots_fire_round_robin 10 1000 ten_records 10 ten_ticks).
  - lia.
  - reflexivity.
  - simpl. lia.
  - simpl. unfold Word.fits. repeat split; lia.
Defined.

(** 500 microseconds after the last fire. *)
Lemma Handle_idle_frame_at_500us :
  let g := MkGlobals 1000 1000 1 ten_records [] in
  elapsed 1500 g < 1000 /\
  exists g',
    main_f_Handle_v 10 1000 (at_time 1500) g = Done tt g' /\
    calls g' = calls g /\
    main_g_CurrTaskIndex_u16 g' = main_g_CurrTaskIndex_u16 g /\
    main_g_LastMicros_u64 g' = main_g_LastMicros_u64 g /\
    main_g_RuntimeMeas_s g' = main_g_RuntimeMeas_s g.
Proof.
  intros g. split; [reflexivity|].
  apply (Handle_idle_frame 10 1000 (at_time 1500) g). reflexivity.
Defined.

(** Scenario C: slot 3 records 50, 20, 80. *)
Lemma ledger_min_current_max_scenario_C :
  let ops := [(3, 50); (3, 20); (3, 80)] in
  exists g',
    run_records ops (initialized 10) = Done tt g' /\
    length (main_g_RuntimeMeas_s g') = length (main_g_RuntimeMeas_s (initialized 10)) /\
    forall slot r, 0 <= slot ->
      main_g_RuntimeMeas_s g' !! Z.to_nat slot = Some r ->
      minCycle_u32 r <= currentCycle_u32 r <= maxCycle_u32 r /\
      (durations_of slot ops = [] -> r = zero_record) /\
      (durations_of slot ops <> [] ->
         is_max (maxCycle_u32 r) (durations_of slot ops)).
Proof.
  intros ops. apply (ledger_min_current_max (initialized 10) ops).
  - simpl. repeat constructor.
  - unfold ops_ok, ops, Word.fits. simpl. repeat constructor; simpl; lia.
Defined.

(** A first measurement of 0 microseconds on slot 3. *)
Lemma record_replaces_zero_min_with_zero :
  exists g' r',
    rtm_record 3 0 (initialized 10) = Done tt g' /\
    main_g_RuntimeMeas_s g' !! Z.to_nat 3 = Some r' /\
    minCycle_u32 r' = 0.
Proof.
  apply (record_replaces_zero_min 3 0 (initialized 10) zero_record).
  - lia.
  - reflexivity.
  - reflexivity.
Defined.

(** A call 999 slot lengths late, in the last slot of the cycle. *)
Lemma Handle_fires_once_after_stall :
  let g := MkGlobals 0 1000 9 ten_records [] in
  exists g',
    main_f_Handle_v 10 1000 (at_time 1000000) g = Done tt g' /\
    calls g' = calls g ++ [Dispatch 9 (switch_arm 9)] /\
    dispatched (calls g') = dispatched (calls g) ++ [9] /\
    main_g_LastMicros_u64 g' = u64 1000000 /\
    main_g_LastMicros_u64 g' = main_g_CurrMicros_u64 g' /\
    main_g_CurrTaskIndex_u16 g' = (9 + 1) mod 10.
Proof.
  intros g. apply (Handle_fires_once 10 1000 (at_time 1000000) g).
  - lia.
  - split; [reflexivity | simpl; lia].
  - discriminate.
Defined.

(** Last fire 400 microseconds before the counter wraps, clock reading 600
    microseconds after. *)
Lemma Handle_wraparound_at_1000us :
  let g := MkGlobals 0 18446744073709551216 0 ten_records [] in
  let clk := at_time 600 in
  let adjusted := (2 ^ 64 - main_g_LastMicros_u64 g) + at_poll clk in
  elapsed (at_poll clk) g = adjusted /\
  elapsed (at_poll clk) g = (at_poll clk - main_g_LastMicros_u64 g) mod 2 ^ 64 /\
  (1000 <= adjusted ->
   exists g',
     main_f_Handle_v 10 1000 clk g = Done tt g' /\
     calls g' = calls g ++ [Dispatch (main_g_CurrTaskIndex_u16 g)
                                     (switch_arm (main_g_CurrTaskIndex_u16 g))] /\
     main_g_LastMicros_u64 g' = at_poll clk) /\
  (adjusted < 1000 ->
   exists g',
     main_f_Handle_v 10 1000 clk g = Done tt g' /\
     calls g' = calls g /\
     main_g_LastMicros_u64 g' = main_g_LastMicros_u64 g /\
     main_g_CurrTaskIndex_u16 g' = main_g_CurrTaskIndex_u16 g).
Proof.
  intros g clk.
  apply (Handle_wraparound 10 1000 clk g).
  - split; [reflexivity | simpl; lia].
  - unfold Word.fits. simpl. lia.
  - unfold Word.fits. simpl. lia.
  - reflexivity.
Defined.

(** Twelve calls in the configuration of [main_e.h]. *)
Lemma task_index_in_bounds_ten_slots :
  let clks := ten_ticks ++ map at_time [10500; 11000] in
  exists g,
    firmware 10 1000 10 clks (boot ten_records) = Done tt g /\
    0 <= main_g_CurrTaskIndex_u16 g < 10 /\
    is_Some (main_g_RuntimeMeas_s g !! Z.to_nat (main_g_CurrTaskIndex_u16 g)) /\
    Forall (fun arm => arm <> DefaultArm) (arms (calls g)).
Proof.
  intros clks.
  destruct (task_index_in_bounds 10 1000 ten_records 10 clks)
    as (g & Hrun & Hidx & Hrec & Harms).
  - lia.
  - reflexivity.
  - simpl. lia.
  - exists g. split; [exact Hrun | split; [exact Hidx | split; [exact Hrec|]]].
    apply Harms. unfold registry_length. lia.
Defined.

(** A handler that runs for 2^32 + 5 microseconds. *)
Lemma Handle_records_duration_mod_2_32_long_task :
  let clk := MkClock 1000 1000 4294968301 in
  let g := initialized 10 in
  (forall stop start g0,
     main_f_StopRTM_v stop start g0 = Done ((stop - start) mod 2 ^ 32) g0) /\
  elapsed (at_poll clk) g
  = (u64 (at_poll clk) - main_g_LastMicros_u64 g) mod 2 ^ 64 /\
  exists g' r',
    main_f_Handle_v 10 1000 clk g = Done tt g' /\
    main_g_RuntimeMeas_s g' !! Z.to_nat (main_g_CurrTaskIndex_u16 g) = Some r' /\
    currentCycle_u32 r' = (at_stop clk - at_start clk) mod 2 ^ 32 /\
    (forall k, 0 <= k < 2 ^ 32 ->
       at_stop clk - at_start clk = 2 ^ 32 + k -> currentCycle_u32 r' = k).
Proof.
  intros clk g. apply (Handle_records_duration_mod_2_32 10 1000 clk g).
  - split; [reflexivity | simpl; lia].
  - discriminate.
Defined.

(** The configuration of [main_e.h], the buffer holding other values
    before. *)
Lemma Init_state_ten_slots :
  exists g,
    main_f_Init_v 10 10 (boot ten_records) = Done tt g /\
    Z.of_nat (length (main_g_RuntimeMeas_s g)) = 10 /\
    Forall (fun r => currentCycle_u32 r = 0 /\ minCycle_u32 r = 0 /\
                     maxCycle_u32 r = 0) (main_g_RuntimeMeas_s g) /\
    main_g_CurrTaskIndex_u16 g = 0 /\
    main_g_LastMicros_u64 g = 0.
Proof.
  apply (Init_state 10 ten_records 10).
  - lia.
  - reflexivity.
  - simpl. lia.
Defined.

(** ** More on the runtime measurement ledger *)

Lemma record_step_min_zero d r :
  minCycle_u32 r = 0 -> minCycle_u32 (record_step d r) = d.
Proof.
  destruct r as [c mn mx]. simpl. intros ->. unfold record_step; simpl.
  destruct (mx <? d); simpl; destruct (d <? 0) eqn:E; simpl;
    try rewrite Z.eqb_refl; simpl; try reflexivity.
  all: destruct (d =? 0); reflexivity.
Qed.

Lemma record_step_min_pos d r :
  1 <= minCycle_u32 r -> 1 <= d ->
  minCycle_u32 (record_step d r) = Z.min (minCycle_u32 r) d.
Proof.
  destruct r as [c mn mx]. simpl. intros Hmn Hd. unfold record_step; simpl.
  destruct (mx <? d); simpl; destruct (Z.ltb_spec d mn); simpl.
  all: try (destruct (Z.eqb_spec d 0); simpl; lia).
  all: destruct (Z.eqb_spec mn 0); simpl; lia.
Qed.

Lemma record_step_min_cases d r :
  minCycle_u32 (record_step d r) = d \/
  minCycle_u32 (record_step d r) = minCycle_u32 r.
Proof.
  destruct r as [c mn mx]. unfold record_step; simpl.
  destruct (mx <? d); simpl; destruct (d <? mn); simpl;
    try (destruct (d =? 0); simpl; auto);
    destruct (mn =? 0); simpl; auto.
Qed.

(** [main_f_HandleRTMStats_v] leaves a record it has already treated as
    it is. *)
Lemma record_step_again r :
  let r' := record_step (currentCycle_u32 r) r in
  record_step (currentCycle_u32 r') r' = r'.
Proof.
  destruct r as [c mn mx]. intros r'. subst r'. unfold record_step; simpl.
  repeat match goal with
         | |- context [?a <? ?b] => destruct (Z.ltb_spec a b); simpl in *
         | |- context [?a =? ?b] => destruct (Z.eqb_spec a b); simpl in *
         end;
    try reflexivity; try lia; f_equal; lia.
Qed.

Lemma main_f_HandleRTMStats_v_none index g :
  main_g_RuntimeMeas_s g !! Z.to_nat index = None ->
  main_f_HandleRTMStats_v index g = Fault.
Proof.
  intros Hr. unfold main_f_HandleRTMStats_v. cbv [mbind M_bind].
  now rewrite rtm_load_none.
Qed.

Lemma main_f_HandleRTMStats_v_negative index g :
  index < 0 -> main_f_HandleRTMStats_v index g = Fault.
Proof.
  intros Hi. unfold main_f_HandleRTMStats_v. cbv [mbind M_bind].
  unfold rtm_load. destruct (index <? 0) eqn:E; [reflexivity | lia].
Qed.

(** X1: calling [main_f_HandleRTMStats_v] a second time for the same
    index changes nothing: two calls in a row have the outcome of one, in
    every state and for every index (a fault outside the buffer
    included). *)
Theorem HandleRTMStats_twice (index : Z) (g : Globals) :
  (main_f_HandleRTMStats_v index;; main_f_HandleRTMStats_v index) g
  = main_f_HandleRTMStats_v index g.
Proof.
  cbv [mbind M_bind].
  destruct (Z_lt_le_dec index 0) as [Hneg|Hpos].
  - now rewrite main_f_HandleRTMStats_v_negative.
  - destruct (main_g_RuntimeMeas_s g !! Z.to_nat index) as [x|] eqn:Hx.
    + assert (Hlt : (Z.to_nat index < length (main_g_RuntimeMeas_s g))%nat)
        by (eapply lookup_lt_Some; eassumption).
      rewrite (main_f_HandleRTMStats_v_some index x g Hpos Hx).
      rewrite main_f_HandleRTMStats_v_slot by assumption.
      now rewrite (record_step_again x).
    + now rewrite main_f_HandleRTMStats_v_none.
Qed.

Lemma record_all_snoc ds d r :
  record_all (ds ++ [d]) r = record_step d (record_all ds r).
Proof. unfold record_all. now rewrite fold_left_app. Qed.

(** Record operations slot by slot. *)
Lemma run_records_slotwise (ops : list (Z * Z)) :
  forall g : Globals,
    Forall (fun op : Z * Z =>
              0 <= fst op < Z.of_nat (length (main_g_RuntimeMeas_s g))) ops ->
    exists g',
      run_records ops g = Done tt g' /\
      main_g_CurrMicros_u64 g' = main_g_CurrMicros_u64 g /\
      main_g_LastMicros_u64 g' = main_g_LastMicros_u64 g /\
      main_g_CurrTaskIndex_u16 g' = main_g_CurrTaskIndex_u16 g /\
      calls g' = calls g /\
      length (main_g_RuntimeMeas_s g') = length (main_g_RuntimeMeas_s g) /\
      forall slot r0, 0 <= slot ->
        main_g_RuntimeMeas_s g !! Z.to_nat slot = Some r0 ->
        main_g_RuntimeMeas_s g' !! Z.to_nat slot
        = Some (record_all (durations_of slot ops) r0).
Proof.
  induction ops as [|[index d] rest IH]; intros g Hops.
  - exists g. repeat split. intros slot r0 _ Hr. exact Hr.
  - inversion Hops as [|op ops' Hidx Hrest]; subst. simpl in Hidx.
    destruct (lookup_lt_is_Some_2 (main_g_RuntimeMeas_s g) (Z.to_nat index))
      as [ri Hri]; [lia|].
    simpl run_records. cbv [mbind M_bind].
    rewrite (rtm_record_some index d g ri) by (lia || assumption).
    destruct (IH (set_slot (Z.to_nat index) (record_step d ri) g))
      as (g' & Hrun & Hc & Hl & Hi & Htr & Hlen & Hslots).
    { simpl. rewrite length_insert. exact Hrest. }
    simpl in Hc, Hl, Hi, Htr, Hlen. rewrite length_insert in Hlen.
    exists g'. repeat split; try assumption.
    intros slot r0 Hs Hr. simpl durations_of.
    destruct (Z.eqb_spec index slot) as [->|Hne].
    + rewrite Hri in Hr. injection Hr as <-.
      apply Hslots; [exact Hs|]. simpl.
      apply list_lookup_insert_eq. eapply lookup_lt_Some; eassumption.
    + apply Hslots; [exact Hs|]. simpl.
      rewrite list_lookup_insert_ne by lia. exact Hr.
Qed.

(** X2: the slots of the ledger are independent.  A sequence of record
    operations on slots of the buffer returns; it leaves the scalar
    globals and the trace alone; and the record of each slot ends as the
    record operations for that slot alone, in their order, make it: a
    slot that no operation addresses keeps its record. *)
Theorem run_records_by_slot (ops : list (Z * Z)) (g : Globals) :
  Forall (fun op : Z * Z =>
            0 <= fst op < Z.of_nat (length (main_g_RuntimeMeas_s g))) ops ->
  exists g',
    run_records ops g = Done tt g' /\
    main_g_CurrMicros_u64 g' = main_g_CurrMicros_u64 g /\
    main_g_LastMicros_u64 g' = main_g_LastMicros_u64 g /\
    main_g_CurrTaskIndex_u16 g' = main_g_CurrTaskIndex_u16 g /\
    calls g' = calls g /\
    length (main_g_RuntimeMeas_s g') = length (main_g_RuntimeMeas_s g) /\
    (forall slot r0, 0 <= slot ->
       main_g_RuntimeMeas_s g !! Z.to_nat slot = Some r0 ->
       main_g_RuntimeMeas_s g' !! Z.to_nat slot
       = Some (record_all (durations_of slot ops) r0)) /\
    (forall slot r0, 0 <= slot ->
       main_g_RuntimeMeas_s g !! Z.to_nat slot = Some r0 ->
       durations_of slot ops = [] ->
       main_g_RuntimeMeas_s g' !! Z.to_nat slot = Some r0).
Proof.
  intros Hops.
  destruct (run_records_slotwise ops g Hops)
    as (g' & Hrun & Hc & Hl & Hi & Htr & Hlen & Hslots).
  exists g'. repeat split; try assumption.
  intros slot r0 Hs Hr Hnone.
  rewrite (Hslots slot r0 Hs Hr), Hnone. reflexivity.
Qed.

Lemma record_all_current ds r :
  currentCycle_u32 (record_all ds r) = List.last ds (currentCycle_u32 r).
Proof.
  induction ds as [|d ds IH] using rev_ind; [reflexivity|].
  rewrite record_all_snoc, last_last.
  now destruct (record_step_fields d (record_all ds r)) as (-> & _).
Qed.

Lemma record_all_max ds r :
  maxCycle_u32 (record_all ds r) = fold_left Z.max ds (maxCycle_u32 r).
Proof.
  induction ds as [|d ds IH] using rev_ind; [reflexivity|].
  rewrite record_all_snoc, fold_left_app. simpl.
  destruct (record_step_fields d (record_all ds r)) as (_ & -> & _).
  now rewrite IH.
Qed.

Lemma fold_left_max_ge ds m : m <= fold_left Z.max ds m.
Proof.
  revert m. induction ds as [|d ds IH]; intros m; simpl; [lia|].
  specialize (IH (Z.max m d)). lia.
Qed.

(** X3: from any buffer, after a sequence of record operations
    [currentCycle_u32] of a slot is the duration recorded last for that
    slot (its old value if there was none), and [maxCycle_u32] is the
    larger of its old value and every duration recorded for the slot, so it
    never decreases. *)
Theorem ledger_current_and_max (ops : list (Z * Z)) (g : Globals)
    (slot : Z) (r0 : main_g_RuntimeMeasTyp_t) :
  Forall (fun op : Z * Z =>
            0 <= fst op < Z.of_nat (length (main_g_RuntimeMeas_s g))) ops ->
  0 <= slot ->
  main_g_RuntimeMeas_s g !! Z.to_nat slot = Some r0 ->
  exists g' r,
    run_records ops g = Done tt g' /\
    main_g_RuntimeMeas_s g' !! Z.to_nat slot = Some r /\
    currentCycle_u32 r = List.last (durations_of slot ops) (currentCycle_u32 r0) /\
    maxCycle_u32 r = fold_left Z.max (durations_of slot ops) (maxCycle_u32 r0) /\
    maxCycle_u32 r0 <= maxCycle_u32 r.
Proof.
  intros Hops Hs Hr0.
  destruct (run_records_slotwise ops g Hops) as (g' & Hrun & _ & _ & _ & _ & _ & Hslots).
  exists g', (record_all (durations_of slot ops) r0).
  split; [exact Hrun | split; [now apply Hslots|]].
  rewrite record_all_current, record_all_max.
  split; [reflexivity | split; [reflexivity | apply fold_left_max_ge]].
Qed.

Lemma fold_left_min_spec ds a :
  let m := fold_left Z.min ds a in
  m <= a /\ Forall (fun d => m <= d) ds /\ (m = a \/ In m ds).
Proof.
  revert a. induction ds as [|d ds IH]; intros a; simpl.
  - split; [lia | split; [constructor | now left]].
  - destruct (IH (Z.min a d)) as (Hle & Hall & Hin).
    split; [lia | split].
    + constructor; [lia | exact Hall].
    + destruct Hin as [Heq|Hin]; [| right; now right].
      destruct (Z.min_spec a d) as [[_ Hm]|[_ Hm]].
      * left. congruence.
      * right. left. congruence.
Qed.

Lemma record_all_min_pos ds :
  forall r, 1 <= minCycle_u32 r -> Forall (fun d => 1 <= d) ds ->
    minCycle_u32 (record_all ds r) = fold_left Z.min ds (minCycle_u32 r).
Proof.
  induction ds as [|d ds IH]; intros r Hr Hds; [reflexivity|].
  inversion Hds as [|x xs Hd Hrest]; subst.
  change (record_all (d :: ds) r) with (record_all ds (record_step d r)).
  simpl fold_left. rewrite <- (record_step_min_pos d r) by assumption.
  apply IH; [| exact Hrest]. rewrite record_step_min_pos by assumption. lia.
Qed.

Lemma durations_of_Forall (P : Z -> Prop) slot ops :
  Forall (fun op : Z * Z => P (snd op)) ops -> Forall P (durations_of slot ops).
Proof.
  induction 1 as [|[index d] rest Hd _ IH]; simpl; [constructor|].
  destruct (index =? slot); [constructor; assumption | exact IH].
Qed.

(** X4: when every recorded duration is at least 1 microsecond, the
    sentinel rule does no harm: from a buffer of all-zero records,
    [minCycle_u32] of a slot that has a recording is the minimum of the
    durations recorded for it. *)
Theorem ledger_min_of_positive_durations (ops : list (Z * Z)) (g : Globals)
    (slot : Z) :
  Forall (fun r => r = zero_record) (main_g_RuntimeMeas_s g) ->
  Forall (fun op : Z * Z =>
            0 <= fst op < Z.of_nat (length (main_g_RuntimeMeas_s g))) ops ->
  Forall (fun op : Z * Z => 1 <= snd op) ops ->
  0 <= slot < Z.of_nat (length (main_g_RuntimeMeas_s g)) ->
  durations_of slot ops <> [] ->
  exists g' r,
    run_records ops g = Done tt g' /\
    main_g_RuntimeMeas_s g' !! Z.to_nat slot = Some r /\
    is_min (minCycle_u32 r) (durations_of slot ops).
Proof.
  intros Hzero Hops Hpos Hslot Hsome.
  destruct (lookup_lt_is_Some_2 (main_g_RuntimeMeas_s g) (Z.to_nat slot))
    as [r0 Hr0]; [lia|].
  assert (r0 = zero_record) as ->.
  { rewrite Forall_forall in Hzero. apply Hzero.
    eapply list_elem_of_lookup_2. exact Hr0. }
  destruct (run_records_slotwise ops g Hops) as (g' & Hrun & _ & _ & _ & _ & _ & Hslots).
  exists g', (record_all (durations_of slot ops) zero_record).
  split; [exact Hrun | split; [apply Hslots; [lia | exact Hr0]|]].
  pose proof (durations_of_Forall (fun d => 1 <= d) slot ops Hpos) as Hds.
  destruct (durations_of slot ops) as [|d ds]; [congruence|].
  inversion Hds as [|x xs Hd Hrest]; subst.
  change (record_all (d :: ds) zero_record)
    with (record_all ds (record_step d zero_record)).
  assert (Hfirst : minCycle_u32 (record_step d zero_record) = d)
    by (now apply record_step_min_zero).
  rewrite record_all_min_pos by (rewrite ?Hfirst; assumption).
  rewrite Hfirst.
  destruct (fold_left_min_spec ds d) as (Hle & Hall & Hin).
  split.
  - destruct Hin as [->|Hin]; [now left | now right].
  - constructor; assumption.
Qed.

Lemma record_step_zero_min r :
  0 <= minCycle_u32 r -> minCycle_u32 (record_step 0 r) = 0.
Proof.
  intros Hmin.
  destruct (record_step_fields 0 r) as (_ & _ & Hle).
  destruct (record_step_min_cases 0 r) as [H|H]; lia.
Qed.

(** X5: a measurement of 0 microseconds makes the ledger forget the
    minimum of a slot.  After recording 0 and then [d] for a slot, its
    [minCycle_u32] is [d], whatever was recorded before, also when [d] is
    above the earlier minimum. *)
Theorem zero_measurement_resets_min (index d : Z) (g : Globals)
    (r : main_g_RuntimeMeasTyp_t) :
  0 <= index ->
  main_g_RuntimeMeas_s g !! Z.to_nat index = Some r ->
  0 <= minCycle_u32 r ->
  exists g' r',
    run_records [(index, 0); (index, d)] g = Done tt g' /\
    main_g_RuntimeMeas_s g' !! Z.to_nat index = Some r' /\
    minCycle_u32 r' = d.
Proof.
  intros Hi Hr Hmin.
  assert (Hlt : (Z.to_nat index < length (main_g_RuntimeMeas_s g))%nat)
    by (eapply lookup_lt_Some; eassumption).
  destruct (run_records_slotwise [(index, 0); (index, d)] g)
    as (g' & Hrun & _ & _ & _ & _ & _ & Hslots).
  { repeat constructor; simpl; lia. }
  exists g', (record_step d (record_step 0 r)).
  split; [exact Hrun | split].
  - rewrite (Hslots index r Hi Hr). simpl. now rewrite Z.eqb_refl.
  - apply record_step_min_zero. now apply record_step_zero_min.
Qed.

(** ** More on [main_f_Handle_v] and the measurement helpers *)

(** X6: [main_f_StartRTM_v] followed by [main_f_StopRTM_v] measures
    exactly: when the clock advanced by less than 2^32 microseconds between
    the two readings, the result is that advance, whatever the readings
    are, also when the 32-bit start value is about to wrap. *)
Theorem StartRTM_StopRTM_exact (start stop : Z) (g : Globals) :
  0 <= stop - start < 2 ^ 32 ->
  (l_RtmMeas_u32 ← main_f_StartRTM_v start;
   main_f_StopRTM_v stop l_RtmMeas_u32) g
  = Done (stop - start) g.
Proof.
  intros Hd. unfold main_f_StartRTM_v, main_f_StopRTM_v.
  cbv [mbind M_bind mret M_ret].
  rewrite u32_sub_u32. unfold u32. now rewrite wrap_id.
Qed.

(** X7: a call of [main_f_Handle_v] that fires performs one record
    operation, on the slot of the current task index and with the duration
    [(stop - start) mod 2^32]; that is all it does to the measurement
    buffer: the other slots keep their records. *)
Theorem Handle_records_current_slot_only (count slot_len : Z) (clk : Clock)
    (g : Globals) :
  state_ok count g ->
  slot_len <= elapsed (at_poll clk) g ->
  exists g' gr,
    main_f_Handle_v count slot_len clk g = Done tt g' /\
    rtm_record (main_g_CurrTaskIndex_u16 g)
               ((at_stop clk - at_start clk) mod 2 ^ 32) g = Done tt gr /\
    main_g_RuntimeMeas_s g' = main_g_RuntimeMeas_s gr /\
    length (main_g_RuntimeMeas_s g') = length (main_g_RuntimeMeas_s g) /\
    forall j : nat,
      j <> Z.to_nat (main_g_CurrTaskIndex_u16 g) ->
      main_g_RuntimeMeas_s g' !! j = main_g_RuntimeMeas_s g !! j.
Proof.
  intros Hok Hge.
  destruct (Handle_cases count slot_len clk g Hok)
    as [[Hidle _]|[_ (r & Hr & Hrun)]]; [lia|].
  assert (Hi : 0 <= main_g_CurrTaskIndex_u16 g) by (destruct Hok as [_ H]; lia).
  exists (fired_state count clk r g),
         (set_slot (Z.to_nat (main_g_CurrTaskIndex_u16 g))
            (record_step ((at_stop clk - at_start clk) mod 2 ^ 32) r) g).
  split; [exact Hrun | split; [now apply rtm_record_some | simpl]].
  rewrite u32_sub_u32. split; [reflexivity | split].
  - apply length_insert.
  - intros j Hj. now apply list_lookup_insert_ne.
Qed.

(** X8: a clock reading below [main_g_LastMicros_u64] makes the call fire
    at once.  With a slot length below 2^16 (it is a [uint16_t]) this
    happens whenever the reading is less than 2^64 - 2^16 behind the last
    fire time, as for a 32-bit clock value that has wrapped to a small
    number. *)
Theorem Handle_fires_when_clock_is_behind (count slot_len : Z) (clk : Clock)
    (g : Globals) :
  state_ok count g ->
  slot_len < 2 ^ 16 ->
  Word.fits 64 (main_g_LastMicros_u64 g) ->
  0 <= at_poll clk < main_g_LastMicros_u64 g ->
  main_g_LastMicros_u64 g - at_poll clk <= 2 ^ 64 - 2 ^ 16 ->
  exists g',
    main_f_Handle_v count slot_len clk g = Done tt g' /\
    dispatched (calls g') = dispatched (calls g) ++ [main_g_CurrTaskIndex_u16 g] /\
    main_g_LastMicros_u64 g' = at_poll clk.
Proof.
  intros Hok Hlen Hlast Hnow Hgap.
  assert (Hfits : Word.fits 64 (at_poll clk))
    by (unfold Word.fits in *; lia).
  assert (He : elapsed (at_poll clk) g
               = at_poll clk + 2 ^ 64 - main_g_LastMicros_u64 g)
    by (apply elapsed_wrapped; [assumption | assumption | lia]).
  destruct (Handle_cases count slot_len clk g Hok)
    as [[Hidle _]|[_ (r & Hr & Hrun)]]; [lia|].
  exists (fired_state count clk r g). split; [exact Hrun | simpl].
  split; [now rewrite dispatched_app | now apply u64_fits].
Qed.

(** ** More on runs of the scheduler *)

Lemma round_robin_events_S count n :
  round_robin_events count (S n)
  = round_robin_events count n
    ++ [Dispatch (Z.of_nat n mod count) (switch_arm (Z.of_nat n mod count))].
Proof.
  unfold round_robin_events, round_robin.
  rewrite seq_S. simpl. now rewrite !map_app.
Qed.

Lemma record_step_in_range d r :
  Word.fits 32 d -> record_in_range r -> record_in_range (record_step d r).
Proof.
  unfold record_in_range, Word.fits. intros Hd (Hc & Hn & Hx & Hord).
  destruct (record_step_fields d r) as (Ec & Ex & En).
  destruct (record_step_min_cases d r) as [Em|Em];
    rewrite Ec, Ex, Em; repeat split; lia.
Qed.

Section MoreRuns.

Variable count : Z.
Variable slot_len : Z.
Hypothesis count_range : 1 <= count <= 65535.

(** A property kept by an idle call and by a firing call is kept by every
    run, and every run returns. *)
Lemma run_ticks_invariant (P : Globals -> Prop) :
  (forall clk g, state_ok count g -> P g -> P (idle_state clk g)) ->
  (forall clk r g,
     state_ok count g -> P g ->
     main_g_RuntimeMeas_s g !! Z.to_nat (main_g_CurrTaskIndex_u16 g) = Some r ->
     slot_len <= elapsed (at_poll clk) g ->
     P (fired_state count clk r g)) ->
  forall clks g,
    state_ok count g -> P g ->
    exists g', run_ticks count slot_len clks g = Done tt g' /\
               state_ok count g' /\ P g'.
Proof.
  intros Hidle Hfire. induction clks as [|clk rest IH]; intros g Hok HP.
  - exists g. split; [reflexivity | split; assumption].
  - simpl. cbv [mbind M_bind].
    destruct (Handle_cases count slot_len clk g Hok)
      as [[_ Hrun]|[Hge (r & Hr & Hrun)]]; rewrite Hrun.
    + apply IH; [exact Hok | now apply Hidle].
    + apply IH; [now apply state_ok_fired | now apply (Hfire clk r g)].
Qed.

(** From the initialised state, whatever the clock reads: the trace is the
    three init calls and then dispatches in round-robin order, and the
    task index is their number modulo [count]. *)
Lemma run_ticks_order (clks : list Clock) :
  exists g n,
    run_ticks count slot_len clks (initialized count) = Done tt g /\
    calls g = [InitCall btn; InitCall pot; InitCall srv]
              ++ round_robin_events count n /\
    main_g_CurrTaskIndex_u16 g = Z.of_nat n mod count.
Proof.
  destruct (run_ticks_invariant
              (fun g => exists n,
                 calls g = [InitCall btn; InitCall pot; InitCall srv]
                           ++ round_robin_events count n /\
                 main_g_CurrTaskIndex_u16 g = Z.of_nat n mod count))
    with (clks := clks) (g := initialized count)
    as (g & Hrun & _ & n & Hcalls & Hidx).
  - intros clk g _ H. exact H.
  - intros clk r g Hok (n & Hcalls & Hidx) _ _. exists (S n). split.
    + simpl calls. rewrite Hcalls, round_robin_events_S, <- Hidx.
      now rewrite <- app_assoc.
    + simpl main_g_CurrTaskIndex_u16.
      rewrite next_index_mod by (assumption || apply Hok).
      rewrite Hidx, Zplus_mod_idemp_l. f_equal. lia.
  - apply state_ok_initialized. lia.
  - exists O. split; [reflexivity|]. simpl. now rewrite Z.mod_0_l by lia.
  - now exists g, n.
Qed.

(** Readings that never decrease: the fires are at least a slot length
    apart, so [n] further dispatches take [n] slot lengths of clock. *)
Lemma run_ticks_rate (clks : list Clock) :
  forall g prev,
    state_ok count g ->
    Word.fits 64 (main_g_LastMicros_u64 g) ->
    main_g_LastMicros_u64 g <= prev ->
    monotone_from prev clks ->
    exists g' n,
      run_ticks count slot_len clks g = Done tt g' /\
      length (dispatched (calls g')) = (length (dispatched (calls g)) + n)%nat /\
      main_g_LastMicros_u64 g + Z.of_nat n * slot_len
        <= main_g_LastMicros_u64 g' /\
      main_g_LastMicros_u64 g' <= latest prev clks.
Proof.
  induction clks as [|clk rest IH]; intros g prev Hok Hlast Hprev Hmono.
  - exists g, O. split; [reflexivity | split; [lia | simpl; lia]].
  - destruct Hmono as (Hnow & Hle & Hrest).
    simpl run_ticks. cbv [mbind M_bind].
    assert (He : elapsed (at_poll clk) g
                 = at_poll clk - main_g_LastMicros_u64 g)
      by (apply elapsed_plain; [assumption | assumption | lia]).
    destruct (Handle_cases count slot_len clk g Hok)
      as [[_ Hrun]|[Hge (r & Hr & Hrun)]]; rewrite Hrun.
    + destruct (IH (idle_state clk g) (at_poll clk)) as (g' & n & Hrun' & Hn & Hlo & Hhi);
        try assumption; [simpl; lia|].
      exists g', n. now repeat split.
    + destruct (IH (fired_state count clk r g) (at_poll clk))
        as (g' & n & Hrun' & Hn & Hlo & Hhi).
      * now apply state_ok_fired.
      * simpl. now rewrite u64_fits.
      * simpl. rewrite u64_fits by assumption. lia.
      * exact Hrest.
      * exists g', (S n). split; [exact Hrun'|].
        simpl calls in Hn. rewrite dispatched_app, length_app in Hn.
        simpl in Hn, Hlo. rewrite u64_fits in Hlo by assumption.
        split; [lia | split; [| exact Hhi]].
        rewrite Nat2Z.inj_succ. lia.
Qed.

(** Every run keeps the globals in the range of their types. *)
Lemma run_ticks_in_range (clks : list Clock) :
  forall g,
    state_ok count g -> globals_in_range g ->
    exists g', run_ticks count slot_len clks g = Done tt g' /\
               state_ok count g' /\ globals_in_range g'.
Proof.
  apply run_ticks_invariant.
  - intros clk g _ (_ & Hl & Hi & Hr).
    split; [apply wrap_fits; lia | split; [exact Hl | split; [exact Hi | exact Hr]]].
  - intros clk r g Hok (_ & _ & _ & Hrecs) Hr _.
    assert (H64 : Word.fits 64 (u64 (at_poll clk))) by (apply wrap_fits; lia).
    split; [exact H64 | split; [exact H64 | split]].
    + destruct (state_ok_fired count count_range clk r g Hok) as [_ Hidx].
      unfold Word.fits. lia.
    + simpl. apply Forall_insert; [exact Hrecs|].
      apply record_step_in_range; [apply wrap_fits; lia|].
      eapply Forall_lookup_1; eassumption.
Qed.

End MoreRuns.

Lemma run_ticks_dispatch_count count slot_len (clks : list Clock) :
  forall g g',
    run_ticks count slot_len clks g = Done tt g' ->
    (length (dispatched (calls g'))
     <= length (dispatched (calls g)) + length clks)%nat.
Proof.
  induction clks as [|clk rest IH]; intros g g' Hrun.
  - injection Hrun as <-. simpl. lia.
  - simpl in Hrun. cbv [mbind M_bind] in Hrun.
    destruct (Z_lt_le_dec (elapsed (at_poll clk) g) slot_len) as [Hlt|Hge].
    + rewrite Handle_idle in Hrun by assumption.
      apply IH in Hrun. simpl in *. lia.
    + destruct (main_g_RuntimeMeas_s g !! Z.to_nat (main_g_CurrTaskIndex_u16 g))
        as [r|] eqn:Hr.
      * destruct (Z_lt_le_dec (main_g_CurrTaskIndex_u16 g) 0) as [Hneg|Hpos].
        -- unfold main_f_Handle_v in Hrun. revert Hrun. run_m. simpl.
           unfold elapsed in Hge.
           destruct (slot_len <=? _) eqn:E; [|lia].
           unfold main_f_StartRTM_v, main_f_StopRTM_v, rtm_modify, rtm_load.
           run_m. simpl.
           destruct (main_g_CurrTaskIndex_u16 g <? 0) eqn:E'; [discriminate | lia].
        -- rewrite (Handle_fire count slot_len clk g r) in Hrun by assumption.
           apply IH in Hrun. simpl calls in Hrun.
           rewrite dispatched_app, length_app in Hrun. simpl in *. lia.
      * rewrite Handle_fire_outside in Hrun by assumption. discriminate.
Qed.

Lemma dispatched_round_robin_events count n :
  dispatched (round_robin_events count n) = round_robin count n.
Proof. apply dispatched_events. Qed.

Lemma arms_round_robin_events count n :
  arms (round_robin_events count n) = map switch_arm (round_robin count n).
Proof. apply arms_events. Qed.

Lemma length_round_robin count n : length (round_robin count n) = n.
Proof. unfold round_robin. now rewrite length_map, length_seq. Qed.

(** X9: the order of dispatch does not depend on the clock.  After
    [main_f_Init_v] and any calls of [main_f_Handle_v], whatever the clock
    reads (irregular, decreasing, wrapped), the trace is the three
    collaborator init calls, once each and first, followed by [n]
    dispatches of the slots 0, 1, ..., count-1, 0, ... in this order, each
    through the switch arm of its slot; [n] is at most the number of calls,
    and the task index is [n mod count]. *)
Theorem firmware_trace_order (count slot_len : Z)
    (buf : list main_g_RuntimeMeasTyp_t) (fuel : nat) (clks : list Clock) :
  1 <= count <= 65535 ->
  Z.of_nat (length buf) = count ->
  (Z.to_nat count <= fuel)%nat ->
  exists g n,
    firmware count slot_len fuel clks (boot buf) = Done tt g /\
    (n <= length clks)%nat /\
    calls g = [InitCall btn; InitCall pot; InitCall srv]
              ++ round_robin_events count n /\
    dispatched (calls g) = round_robin count n /\
    arms (calls g) = map switch_arm (round_robin count n) /\
    main_g_CurrTaskIndex_u16 g = Z.of_nat n mod count.
Proof.
  intros Hcount Hlen Hfuel.
  unfold firmware. cbv [mbind M_bind].
  rewrite main_f_Init_v_boot by (lia || assumption).
  destruct (run_ticks_order count slot_len Hcount clks)
    as (g & n & Hrun & Hcalls & Hidx).
  exists g, n. split; [exact Hrun|].
  assert (Hd : dispatched (calls g) = round_robin count n)
    by (rewrite Hcalls, dispatched_app; apply dispatched_round_robin_events).
  split; [| split; [exact Hcalls | split; [exact Hd | split; [| exact Hidx]]]].
  - pose proof (run_ticks_dispatch_count count slot_len clks _ _ Hrun) as Hle.
    rewrite Hd, length_round_robin in Hle. simpl in Hle. exact Hle.
  - rewrite Hcalls, arms_app. apply arms_round_robin_events.
Qed.

(** X10: the scheduler never dispatches faster than one slot per slot
    length.  After [main_f_Init_v], for calls whose clock readings are
    [uint64_t] values that never decrease, the number of dispatches times
    the slot length is at most [main_g_LastMicros_u64], which is at most
    the latest clock reading. *)
Theorem dispatch_rate_bound (count slot_len : Z)
    (buf : list main_g_RuntimeMeasTyp_t) (fuel : nat) (clks : list Clock) :
  1 <= count <= 65535 ->
  Z.of_nat (length buf) = count ->
  (Z.to_nat count <= fuel)%nat ->
  monotone_from 0 clks ->
  exists g,
    firmware count slot_len fuel clks (boot buf) = Done tt g /\
    Z.of_nat (length (dispatched (calls g))) * slot_len
      <= main_g_LastMicros_u64 g /\
    main_g_LastMicros_u64 g <= latest 0 clks.
Proof.
  intros Hcount Hlen Hfuel Hmono.
  unfold firmware. cbv [mbind M_bind].
  rewrite main_f_Init_v_boot by (lia || assumption).
  destruct (run_ticks_rate count slot_len Hcount clks (initialized count) 0)
    as (g & n & Hrun & Hn & Hlo & Hhi).
  - apply state_ok_initialized. lia.
  - unfold Word.fits. simpl. lia.
  - simpl. lia.
  - exact Hmono.
  - exists g. split; [exact Hrun|]. simpl in Hn, Hlo.
    rewrite Hn. split; [exact Hlo | exact Hhi].
Qed.

(** X11: in every state the firmware reaches, whatever the clock reads,
    the two time stamps are [uint64_t] values, the task index is a
    [uint16_t] value, and every record of the ledger holds [uint32_t]
    values with [minCycle_u32 <= currentCycle_u32 <= maxCycle_u32]. *)
Theorem firmware_globals_in_range (count slot_len : Z)
    (buf : list main_g_RuntimeMeasTyp_t) (fuel : nat) (clks : list Clock) :
  1 <= count <= 65535 ->
  Z.of_nat (length buf) = count ->
  (Z.to_nat count <= fuel)%nat ->
  exists g,
    firmware count slot_len fuel clks (boot buf) = Done tt g /\
    globals_in_range g.
Proof.
  intros Hcount Hlen Hfuel.
  unfold firmware. cbv [mbind M_bind].
  rewrite main_f_Init_v_boot by (lia || assumption).
  destruct (run_ticks_in_range count slot_len Hcount clks (initialized count))
    as (g & Hrun & _ & Hrange).
  - apply state_ok_initialized. lia.
  - unfold globals_in_range, Word.fits. simpl.
    repeat split; try lia.
    apply Forall_replicate. unfold record_in_range, Word.fits. simpl. lia.
  - now exists g.
Qed.

(** ** More on [main_f_Init_v] *)

(** X12: [main_f_Init_v] writes the measurement buffer and nothing else of
    the main OS.  Called in any state, it zeroes every record and calls
    the three collaborator init functions, and leaves
    [main_g_CurrTaskIndex_u16], [main_g_LastMicros_u64] and
    [main_g_CurrMicros_u64] as it finds them: their start values come from
    the static initialisers. *)
Theorem Init_keeps_schedule (count : Z) (fuel : nat) (g : Globals) :
  0 <= count <= 65535 ->
  buffer_ok count g ->
  (Z.to_nat count <= fuel)%nat ->
  main_f_Init_v count fuel g
  = Done tt (MkGlobals (main_g_CurrMicros_u64 g) (main_g_LastMicros_u64 g)
               (main_g_CurrTaskIndex_u16 g)
               (replicate (Z.to_nat count) zero_record)
               (calls g ++ [InitCall btn; InitCall pot; InitCall srv])).
Proof.
  intros Hcount Hbuf Hfuel. unfold main_f_Init_v. cbv [mbind M_bind].
  rewrite (init_loop_zeroes count Hcount (Z.to_nat count));
    [| lia | lia | exact Hbuf | lia].
  unfold btn_Init_v, pot_f_Init_v, srv_Init_v, emit, with_RuntimeMeas. simpl.
  now rewrite <- !app_assoc.
Qed.

Lemma init_loop_above_u16 count (fuel : nat) :
  forall i g,
    65536 <= count -> 0 <= i <= 65535 ->
    65536 <= Z.of_nat (length (main_g_RuntimeMeas_s g)) ->
    init_loop count fuel i g = Timeout.
Proof.
  induction fuel as [|fuel IH]; intros i g Hcount Hi Hlen; simpl;
    destruct (i <? count) eqn:E; try lia; [reflexivity|].
  destruct (lookup_lt_is_Some_2 (main_g_RuntimeMeas_s g) (Z.to_nat i))
    as [r Hr]; [lia|].
  cbv [mbind M_bind].
  rewrite (rtm_modify_slot i _ g r) by (lia || assumption).
  rewrite rtm_modify_set_slot by lia.
  rewrite rtm_modify_set_slot by lia.
  apply IH; [exact Hcount | | simpl; rewrite length_insert; exact Hlen].
  pose proof (wrap_fits 16 (i + 1) ltac:(lia)) as Hw.
  unfold Word.fits in Hw. unfold u16. lia.
Qed.

(** X13: the loop counter of [main_f_Init_v] is a [uint16_t].  With a task
    count above 65535 (and a buffer of that many records) the counter
    wraps to 0 before it reaches the count, and [main_f_Init_v] does not
    return, however many rounds of the loop it is given. *)
Theorem Init_does_not_return_above_u16 (count : Z) (fuel : nat) (g : Globals) :
  65536 <= count ->
  buffer_ok count g ->
  main_f_Init_v count fuel g = Timeout.
Proof.
  intros Hcount Hbuf. unfold buffer_ok in Hbuf.
  unfold main_f_Init_v. cbv [mbind M_bind].
  rewrite init_loop_above_u16; [reflexivity | exact Hcount | lia | lia].
Qed.

(** ** Serial debug *)

Lemma debug_loop_rows count (k : nat) :
  forall (i : Z) (g : Globals) (fuel : nat),
    count <= 65535 ->
    0 <= i -> i + Z.of_nat k = count -> buffer_ok count g ->
    (k <= fuel)%nat ->
    debug_loop count fuel i g
    = Done (debug_rows i (drop (Z.to_nat i) (main_g_RuntimeMeas_s g))) g.
Proof.
  unfold buffer_ok.
  induction k as [|k IH]; intros i g fuel Hcount Hi Hk Hbuf Hfuel.
  - assert (i = count) by lia; subst i.
    rewrite drop_ge by lia.
    destruct fuel; simpl; now rewrite Z.ltb_irrefl.
  - destruct fuel as [|fuel]; [lia|]. simpl.
    destruct (i <? count) eqn:E; [|lia].
    destruct (lookup_lt_is_Some_2 (main_g_RuntimeMeas_s g) (Z.to_nat i))
      as [r Hr]; [lia|].
    cbv [mbind M_bind mret M_ret].
    rewrite !(rtm_load_some i g r) by assumption.
    rewrite u16_small by lia.
    rewrite IH by lia.
    rewrite (drop_S _ r (Z.to_nat i)) by exact Hr.
    replace (Z.to_nat (i + 1)) with (S (Z.to_nat i)) by lia.
    reflexivity.
Qed.

(** X14: [main_f_SerialDebug_v], run on its own for any number of passes,
    only reads the globals of the main OS: it returns them unchanged.  Each
    pass prints the two header lines, then one line for every slot from 0
    to the task count less one, in order, with [currentCycle_u32],
    [minCycle_u32] and [maxCycle_u32] of that slot in this order, then
    calls the three collaborator debug functions and delays. *)
Theorem SerialDebug_reads_only (count : Z) (passes fuel : nat) (g : Globals) :
  0 <= count <= 65535 ->
  buffer_ok count g ->
  (Z.to_nat count <= fuel)%nat ->
  main_f_SerialDebug_v count passes fuel g
  = Done (concat (replicate passes
                    (debug_pass_output (main_g_RuntimeMeas_s g)))) g.
Proof.
  intros Hcount Hbuf Hfuel.
  induction passes as [|passes IH]; [reflexivity|].
  simpl. unfold main_f_SerialDebug_pass. cbv [mbind M_bind mret M_ret].
  rewrite (debug_loop_rows count (Z.to_nat count)) by (lia || exact Hbuf).
  cbv [mbind M_bind mret M_ret] in IH. rewrite IH. reflexivity.
Qed.

(** ** Start-up and full cycles *)

Lemma run_ticks_app count slot_len (clks1 clks2 : list Clock) (g : Globals) :
  run_ticks count slot_len (clks1 ++ clks2) g
  = (run_ticks count slot_len clks1;; run_ticks count slot_len clks2) g.
Proof.
  revert g. induction clks1 as [|clk rest IH]; intros g; [reflexivity|].
  simpl. cbv [mbind M_bind] in *.
  destruct (main_f_Handle_v count slot_len clk g); [apply IH | reflexivity..].
Qed.

(** Calls before clock value [slot_len], with the last fire time still 0:
    nothing happens but the store into [main_g_CurrMicros_u64]. *)
Lemma run_ticks_early count slot_len (clks : list Clock) :
  forall g,
    main_g_LastMicros_u64 g = 0 ->
    Forall (fun clk => 0 <= at_poll clk < slot_len /\ Word.fits 64 (at_poll clk))
           clks ->
    exists g',
      run_ticks count slot_len clks g = Done tt g' /\
      main_g_LastMicros_u64 g' = 0 /\
      main_g_CurrTaskIndex_u16 g' = main_g_CurrTaskIndex_u16 g /\
      main_g_RuntimeMeas_s g' = main_g_RuntimeMeas_s g /\
      calls g' = calls g.
Proof.
  induction clks as [|clk rest IH]; intros g Hlast Hall.
  - exists g. now repeat split.
  - inversion Hall as [|x xs [Hearly Hfits] Hrest]; subst.
    simpl. cbv [mbind M_bind].
    rewrite Handle_idle.
    2:{ rewrite elapsed_plain; rewrite ?Hlast; unfold Word.fits in *; lia. }
    destruct (IH (idle_state clk g) Hlast Hrest) as (g' & Hrun & H1 & H2 & H3 & H4).
    exists g'. now repeat split.
Qed.

(** X15: the first dispatch is timed from clock value 0, not from the call
    of [main_f_Init_v].  After [main_f_Init_v], calls whose clock readings
    are below the slot length dispatch nothing, and the first call whose
    reading is at least the slot length dispatches slot 0, however short
    the time since initialisation. *)
Theorem first_dispatch_counts_from_zero (count slot_len : Z)
    (buf : list main_g_RuntimeMeasTyp_t) (fuel : nat)
    (early : list Clock) (clk : Clock) :
  1 <= count <= 65535 ->
  Z.of_nat (length buf) = count ->
  (Z.to_nat count <= fuel)%nat ->
  Forall (fun c => 0 <= at_poll c < slot_len /\ Word.fits 64 (at_poll c)) early ->
  Word.fits 64 (at_poll clk) ->
  slot_len <= at_poll clk ->
  (exists g0,
     firmware count slot_len fuel early (boot buf) = Done tt g0 /\
     dispatched (calls g0) = [] /\
     main_g_RuntimeMeas_s g0 = replicate (Z.to_nat count) zero_record) /\
  (exists g,
     firmware count slot_len fuel (early ++ [clk]) (boot buf) = Done tt g /\
     dispatched (calls g) = [0] /\
     main_g_LastMicros_u64 g = at_poll clk).
Proof.
  intros Hcount Hlen Hfuel Hearly Hfits Hdue.
  destruct (run_ticks_early count slot_len early (initialized count) eq_refl Hearly)
    as (g0 & Hrun0 & Hlast & Hidx & Hmeas & Hcalls).
  assert (Hok0 : state_ok count g0).
  { split.
    - unfold buffer_ok. rewrite Hmeas. simpl. rewrite length_replicate. lia.
    - rewrite Hidx. simpl. lia. }
  split.
  - exists g0. unfold firmware. cbv [mbind M_bind].
    rewrite main_f_Init_v_boot by (lia || assumption).
    split; [exact Hrun0 | split; [now rewrite Hcalls | exact Hmeas]].
  - unfold firmware. cbv [mbind M_bind].
    rewrite main_f_Init_v_boot by (lia || assumption).
    rewrite run_ticks_app. cbv [mbind M_bind]. rewrite Hrun0. simpl.
    cbv [mbind M_bind mret M_ret].
    assert (He : elapsed (at_poll clk) g0 = at_poll clk - 0).
    { rewrite <- Hlast. apply elapsed_plain; rewrite ?Hlast;
        unfold Word.fits in *; lia. }
    destruct (Handle_cases count slot_len clk g0 Hok0)
      as [[Hidle _]|[_ (r & Hr & Hrun)]]; [lia|].
    rewrite Hrun. exists (fired_state count clk r g0).
    split; [reflexivity | simpl]. rewrite dispatched_app, Hcalls, Hidx. simpl.
    split; [reflexivity | now apply u64_fits].
Qed.

Lemma handle_calls_app c tr1 tr2 :
  handle_calls c (tr1 ++ tr2) = (handle_calls c tr1 + handle_calls c tr2)%nat.
Proof.
  induction tr1 as [|[c0|slot [c'| |]] tr1 IH]; simpl; try exact IH; [reflexivity|].
  destruct (Component_eqb c c'); simpl; now rewrite IH.
Qed.

(** Only the arms of the slots 0, 1 and 2 call a collaborator. *)
Lemma switch_arm_not_bound index c : 3 <= index -> switch_arm index <> Bound c.
Proof.
  intros Hi. unfold switch_arm.
  repeat match goal with
         | |- context [?a =? ?b] => destruct (Z.eqb_spec a b); [lia || discriminate|]
         end.
  discriminate.
Qed.

Lemma handle_calls_from_slot_3 c (slots : list Z) :
  Forall (fun i => 3 <= i) slots ->
  handle_calls c (map (fun i => Dispatch i (switch_arm i)) slots) = O.
Proof.
  induction 1 as [|i slots Hi _ IH]; [reflexivity|]. simpl.
  destruct (switch_arm i) as [c'| |] eqn:E; try exact IH.
  now apply switch_arm_not_bound in E.
Qed.

(** One round of at least three slots calls each handle once. *)
Lemma handle_calls_one_cycle c (cnt : nat) :
  (3 <= cnt)%nat ->
  handle_calls c (map (fun i => Dispatch i (switch_arm i))
                      (map Z.of_nat (seq 0 cnt))) = 1%nat.
Proof.
  intros Hcnt. destruct cnt as [|[|[|k]]]; try lia.
  change (seq 0 (S (S (S k)))) with ([0; 1; 2] ++ seq 3 k)%nat.
  rewrite !map_app, handle_calls_app.
  rewrite (handle_calls_from_slot_3 c (map Z.of_nat (seq 3 k))).
  - destruct c; reflexivity.
  - rewrite Forall_map. apply Forall_forall. intros x Hx.
    apply list_elem_of_In, in_seq in Hx. simpl. lia.
Qed.

Lemma round_robin_offset (cnt m len : nat) :
  forall j : nat,
    (j + len <= cnt)%nat ->
    map (fun k => Z.of_nat k mod Z.of_nat cnt) (seq (m * cnt + j) len)
    = map Z.of_nat (seq j len).
Proof.
  induction len as [|len IH]; intros j Hj; [reflexivity|]. simpl. f_equal.
  - rewrite Nat2Z.inj_add, Nat2Z.inj_mul, Z.add_comm, Z.mod_add by lia.
    apply Z.mod_small. lia.
  - replace (S (m * cnt + j)) with (m * cnt + S j)%nat by lia.
    apply IH. lia.
Qed.

Lemma round_robin_events_cycles c (cnt m : nat) :
  (3 <= cnt)%nat ->
  handle_calls c (round_robin_events (Z.of_nat cnt) (m * cnt)) = m.
Proof.
  intros Hcnt. induction m as [|m IH]; [reflexivity|].
  replace (S m * cnt)%nat with (m * cnt + cnt)%nat by lia.
  unfold round_robin_events, round_robin in *.
  rewrite seq_app, !map_app, handle_calls_app, IH.
  replace (0 + m * cnt)%nat with (m * cnt + 0)%nat by lia.
  rewrite round_robin_offset by lia.
  rewrite handle_calls_one_cycle by exact Hcnt. lia.
Qed.

(** X16: with at least three slots, every collaborator handle is called
    exactly once per cycle.  After [main_f_Init_v] and any calls of
    [main_f_Handle_v], whatever the clock reads, when the number of
    dispatches so far is [m] full cycles, each of [btn_Handle_v],
    [pot_f_Handle_v] and [srv_Handle_v] has been called [m] times. *)
Theorem handles_once_per_cycle (count slot_len : Z)
    (buf : list main_g_RuntimeMeasTyp_t) (fuel : nat) (clks : list Clock) :
  3 <= count <= 65535 ->
  Z.of_nat (length buf) = count ->
  (Z.to_nat count <= fuel)%nat ->
  exists g,
    firmware count slot_len fuel clks (boot buf) = Done tt g /\
    forall (m : nat) (c : Component),
      length (dispatched (calls g)) = (m * Z.to_nat count)%nat ->
      handle_calls c (calls g) = m.
Proof.
  intros Hcount Hlen Hfuel.
  unfold firmware. cbv [mbind M_bind].
  rewrite main_f_Init_v_boot by (lia || assumption).
  destruct (run_ticks_order count slot_len ltac:(lia) clks)
    as (g & n & Hrun & Hcalls & _).
  exists g. split; [exact Hrun|].
  intros m c Hn.
  rewrite Hcalls, dispatched_app, dispatched_round_robin_events in Hn.
  simpl in Hn. rewrite length_round_robin in Hn. subst n.
  rewrite Hcalls, handle_calls_app. simpl.
  rewrite <- (Z2Nat.id count) at 1 by lia.
  apply round_robin_events_cycles. lia.
Qed.

(** ** The further properties at concrete inputs *)

Lemma run_records_by_slot_three_records :
  exists g',
    run_records three_records (initialized 10) = Done tt g' /\
    calls g' = calls (initialized 10) /\
    main_g_RuntimeMeas_s g' !! 3%nat = Some (record_all [50; 80] zero_record) /\
    main_g_RuntimeMeas_s g' !! 5%nat = Some zero_record.
Proof.
  destruct (run_records_by_slot three_records (initialized 10))
    as (g' & Hrun & _ & _ & _ & Htr & _ & Hslots & Hframe).
  - repeat constructor; simpl; lia.
  - exists g'. split; [exact Hrun | split; [exact Htr | split]].
    + apply (Hslots 3 zero_record); [lia | reflexivity].
    + apply (Hframe 5 zero_record); [lia | reflexivity | reflexivity].
Defined.

Lemma ledger_current_and_max_three_records :
  exists g' r,
    run_records three_records mid_run = Done tt g' /\
    main_g_RuntimeMeas_s g' !! Z.to_nat 3 = Some r /\
    currentCycle_u32 r = List.last (durations_of 3 three_records) 7 /\
    maxCycle_u32 r = fold_left Z.max (durations_of 3 three_records) 9 /\
    9 <= maxCycle_u32 r.
Proof.
  apply (ledger_current_and_max three_records mid_run 3 (RuntimeMeas 7 8 9)).
  - repeat constructor; simpl; lia.
  - lia.
  - reflexivity.
Defined.

Lemma ledger_min_of_positive_durations_three_records :
  exists g' r,
    run_records three_records (initialized 10) = Done tt g' /\
    main_g_RuntimeMeas_s g' !! Z.to_nat 3 = Some r /\
    is_min (minCycle_u32 r) (durations_of 3 three_records).
Proof.
  apply (ledger_min_of_positive_durations three_records (initialized 10) 3).
  - simpl. repeat constructor.
  - repeat constructor; simpl; lia.
  - repeat constructor; simpl; lia.
  - simpl. lia.
  - discriminate.
Defined.

(** A slot with minimum 8 records 0 and then 80. *)
Lemma zero_measurement_resets_min_to_80 :
  exists g' r',
    run_records [(3, 0); (3, 80)] mid_run = Done tt g' /\
    main_g_RuntimeMeas_s g' !! Z.to_nat 3 = Some r' /\
    minCycle_u32 r' = 80.
Proof.
  apply (zero_measurement_resets_min 3 80 mid_run (RuntimeMeas 7 8 9)).
  - lia.
  - reflexivity.
  - simpl. lia.
Defined.

(** Start 10 microseconds before the 32-bit value wraps, stop 5 after. *)
Lemma StartRTM_StopRTM_exact_across_wrap :
  (l_RtmMeas_u32 ← main_f_StartRTM_v 4294967286;
   main_f_StopRTM_v 4294967301 l_RtmMeas_u32) mid_run
  = Done (4294967301 - 4294967286) mid_run.
Proof.
  apply (StartRTM_StopRTM_exact 4294967286 4294967301 mid_run). lia.
Defined.

Lemma Handle_records_current_slot_only_slot_7 :
  exists g' gr,
    main_f_Handle_v 10 1000 (at_time 5000) mid_run = Done tt g' /\
    rtm_record 7 ((5003 - 5000) mod 2 ^ 32) mid_run = Done tt gr /\
    main_g_RuntimeMeas_s g' = main_g_RuntimeMeas_s gr /\
    length (main_g_RuntimeMeas_s g') = length (main_g_RuntimeMeas_s mid_run) /\
    forall j : nat,
      j <> Z.to_nat 7 ->
      main_g_RuntimeMeas_s g' !! j = main_g_RuntimeMeas_s mid_run !! j.
Proof.
  apply (Handle_records_current_slot_only 10 1000 (at_time 5000) mid_run).
  - split; [reflexivity | simpl; lia].
  - discriminate.
Defined.

(** A 32-bit clock value that has wrapped from near 2^32 to 200. *)
Lemma Handle_fires_when_clock_is_behind_32_bit :
  let g := MkGlobals 0 4294967000 0 ten_records [] in
  exists g',
    main_f_Handle_v 10 1000 (at_time 200) g = Done tt g' /\
    dispatched (calls g') = dispatched (calls g) ++ [0] /\
    main_g_LastMicros_u64 g' = 200.
Proof.
  intros g. apply (Handle_fires_when_clock_is_behind 10 1000 (at_time 200) g).
  - split; [reflexivity | simpl; lia].
  - lia.
  - unfold Word.fits. simpl. lia.
  - simpl. lia.
  - simpl. lia.
Defined.

Lemma firmware_trace_order_erratic_ticks :
  exists g n,
    firmware 10 1000 10 erratic_ticks (boot ten_records) = Done tt g /\
    (n <= length erratic_ticks)%nat /\
    calls g = [InitCall btn; InitCall pot; InitCall srv]
              ++ round_robin_events 10 n /\
    dispatched (calls g) = round_robin 10 n /\
    arms (calls g) = map switch_arm (round_robin 10 n) /\
    main_g_CurrTaskIndex_u16 g = Z.of_nat n mod 10.
Proof.
  apply (firmware_trace_order 10 1000 ten_records 10 erratic_ticks).
  - lia.
  - reflexivity.
  - simpl. lia.
Defined.

Lemma dispatch_rate_bound_ten_ticks :
  exists g,
    firmware 10 1000 10 ten_ticks (boot ten_records) = Done tt g /\
    Z.of_nat (length (dispatched (calls g))) * 1000
      <= main_g_LastMicros_u64 g /\
    main_g_LastMicros_u64 g <= latest 0 ten_ticks.
Proof.
  apply (dispatch_rate_bound 10 1000 ten_records 10 ten_ticks).
  - lia.
  - reflexivity.
  - simpl. lia.
  - simpl. unfold Word.fits. repeat split; lia.
Defined.

Lemma firmware_globals_in_range_erratic_ticks :
  exists g,
    firmware 10 1000 10 erratic_ticks (boot ten_records) = Done tt g /\
    globals_in_range g.
Proof.
  apply (firmware_globals_in_range 10 1000 ten_records 10 erratic_ticks).
  - lia.
  - reflexivity.
  - simpl. lia.
Defined.

Lemma Init_keeps_schedule_mid_run :
  main_f_Init_v 10 10 mid_run
  = Done tt (MkGlobals 5000 4000 7 (replicate (Z.to_nat 10) zero_record)
               (calls mid_run ++ [InitCall btn; InitCall pot; InitCall srv])).
Proof.
  apply (Init_keeps_schedule 10 10 mid_run).
  - lia.
  - reflexivity.
  - simpl. lia.
Defined.

Lemma SerialDebug_reads_only_two_passes :
  main_f_SerialDebug_v 10 2 10 mid_run
  = Done (concat (replicate 2 (debug_pass_output ten_records))) mid_run.
Proof.
  apply (SerialDebug_reads_only 10 2 10 mid_run).
  - lia.
  - reflexivity.
  - simpl. lia.
Defined.

(** Three polls before clock value 1000 and the poll at 1000. *)
Lemma first_dispatch_counts_from_zero_at_1000 :
  (exists g0,
     firmware 10 1000 10 (map at_time [10; 500; 999]) (boot ten_records)
     = Done tt g0 /\
     dispatched (calls g0) = [] /\
     main_g_RuntimeMeas_s g0 = replicate (Z.to_nat 10) zero_record) /\
  (exists g,
     firmware 10 1000 10 (map at_time [10; 500; 999] ++ [at_time 1000])
              (boot ten_records) = Done tt g /\
     dispatched (calls g) = [0] /\
     main_g_LastMicros_u64 g = at_poll (at_time 1000)).
Proof.
  apply (first_dispatch_counts_from_zero 10 1000 ten_records 10
           (map at_time [10; 500; 999]) (at_time 1000)).
  - lia.
  - reflexivity.
  - simpl. lia.
  - unfold Word.fits. repeat constructor; simpl; lia.
  - unfold Word.fits. simpl. lia.
  - simpl. lia.
Defined.

Lemma handles_once_per_cycle_ten_ticks :
  exists g,
    firmware 10 1000 10 ten_ticks (boot ten_records) = Done tt g /\
    forall (m : nat) (c : Component),
      length (dispatched (calls g)) = (m * Z.to_nat 10)%nat ->
      handle_calls c (calls g) = m.
Proof.
  apply (handles_once_per_cycle 10 1000 ten_records 10 ten_ticks).
  - lia.
  - reflexivity.
  - simpl. lia.
Defined.

(** A task count of 65536, one more than the loop counter can hold. *)
Lemma Init_does_not_return_above_u16_at_65536 :
  main_f_Init_v 65536 100 (boot (replicate (Z.to_nat 65536) zero_record))
  = Timeout.
Proof.
  apply (Init_does_not_return_above_u16 65536 100
           (boot (replicate (Z.to_nat 65536) zero_record))).
  - lia.
  - unfold buffer_ok, boot. cbn [main_g_RuntimeMeas_s].
    rewrite length_replicate. lia.
Defined.

(** ** Initialisation against the dispatch switch *)

(** In a well spaced run from the initialised state the number of
    dispatches is [fired_count]. *)
Lemma run_ticks_well_spaced_length (count slot_len : Z) (clks : list Clock)
    (g : Globals) :
  1 <= count <= 65535 ->
  well_spaced slot_len clks ->
  run_ticks count slot_len clks (initialized count) = Done tt g ->
  length (dispatched (calls g)) = fired_count slot_len clks.
Proof.
  intros Hcount Hsp Hrun.
  assert (Hok : state_ok count (initialized count))
    by (apply state_ok_initialized; lia).
  assert (Hzero : Word.fits 64 0) by (unfold Word.fits; lia).
  destruct clks as [|clk rest].
  - injection Hrun as <-. reflexivity.
  - destruct Hsp as [Hnow Hrest]. unfold fired_count.
    destruct (slot_len <=? at_poll clk) eqn:E.
    + destruct (run_ticks_all_fire count slot_len Hcount (clk :: rest)
                  (initialized count) Hok Hzero) as (g2 & Hrun2 & Htr).
      { apply Z.leb_le in E. simpl.
        split; [exact Hnow | unfold Word.fits in Hnow].
        split; [lia | split; [lia | exact Hrest]]. }
      rewrite Hrun2 in Hrun. injection Hrun as <-.
      rewrite Htr, length_app, length_map, length_seq. reflexivity.
    + simpl run_ticks in Hrun. cbv [mbind M_bind] in Hrun.
      rewrite Handle_idle in Hrun.
      2:{ apply Z.leb_gt in E.
          rewrite elapsed_plain; simpl; unfold Word.fits in *; lia. }
      destruct (run_ticks_all_fire count slot_len Hcount rest
                  (idle_state clk (initialized count)) Hok Hzero)
        as (g2 & Hrun2 & Htr).
      { simpl. apply (spaced_from_earlier slot_len (at_poll clk)); [|exact Hrest].
        unfold Word.fits in Hnow. lia. }
      rewrite Hrun2 in Hrun. injection Hrun as <-.
      rewrite Htr, length_app, length_map, length_seq. reflexivity.
Qed.

Lemma In_round_robin (count : Z) (n : nat) (i : Z) :
  0 <= i < count -> (Z.to_nat i < n)%nat -> In i (round_robin count n).
Proof.
  intros Hi Hn. unfold round_robin. apply in_map_iff.
  exists (Z.to_nat i). split.
  - rewrite Z2Nat.id by lia. apply Z.mod_small. exact Hi.
  - apply in_seq. lia.
Qed.

(** C7, as amended: [main_f_Init_v] compares nothing with the number of
    arms of the dispatch switch.  For every task count from 0 to 65535,
    equal to that number or not, it returns normally, having zeroed every
    record of the buffer and called the three collaborator init functions
    in order; no slot has been dispatched by then.  In the calls of
    [main_f_Handle_v] that follow (task count at least 1) the slots are
    dispatched in round-robin order, as many as [fired_count] says when the
    calls are well spaced; every dispatch of a slot index of 10 or more
    goes through the [default] arm, and each such index below the task
    count is so dispatched once the run is long enough to reach it. *)
Theorem Init_completes_for_every_count (count slot_len : Z)
    (buf : list main_g_RuntimeMeasTyp_t) (fuel : nat) (clks : list Clock) :
  0 <= count <= 65535 ->
  Z.of_nat (length buf) = count ->
  (Z.to_nat count <= fuel)%nat ->
  exists g,
    main_f_Init_v count fuel (boot buf) = Done tt g /\
    main_g_RuntimeMeas_s g = replicate (Z.to_nat count) zero_record /\
    calls g = [InitCall btn; InitCall pot; InitCall srv] /\
    dispatched (calls g) = [] /\
    (1 <= count ->
     exists g' n,
       run_ticks count slot_len clks g = Done tt g' /\
       calls g' = calls g ++ round_robin_events count n /\
       (well_spaced slot_len clks -> n = fired_count slot_len clks) /\
       (forall i arm,
          In (Dispatch i arm) (calls g') ->
          registry_length <= i -> arm = DefaultArm) /\
       (forall i,
          registry_length <= i < count -> (Z.to_nat i < n)%nat ->
          In (Dispatch i DefaultArm) (calls g'))).
Proof.
  intros Hcount Hlen Hfuel. exists (initialized count).
  split; [now apply main_f_Init_v_boot|].
  split; [reflexivity | split; [reflexivity | split; [reflexivity|]]].
  intros Hpos.
  assert (Hrange : 1 <= count <= 65535) by lia.
  destruct (run_ticks_order count slot_len Hrange clks)
    as (g' & n & Hrun & Hcalls & _).
  exists g', n. split; [exact Hrun | split; [exact Hcalls | split; [| split]]].
  - intros Hsp.
    pose proof (run_ticks_well_spaced_length count slot_len clks g'
                  Hrange Hsp Hrun) as Hfired.
    rewrite Hcalls, dispatched_app, dispatched_round_robin_events in Hfired.
    simpl in Hfired. now rewrite length_round_robin in Hfired.
  - intros i arm Hin Hi. rewrite Hcalls in Hin.
    apply in_app_or in Hin. destruct Hin as [Hin|Hin].
    + simpl in Hin. destruct Hin as [H|[H|[H|[]]]]; discriminate H.
    + unfold round_robin_events in Hin. apply in_map_iff in Hin.
      destruct Hin as (j & Hj & _). injection Hj as -> <-.
      apply switch_arm_default. lia.
  - intros i Hi Hn. rewrite Hcalls. apply in_or_app. right.
    unfold round_robin_events. apply in_map_iff. exists i. split.
    + f_equal. apply switch_arm_default. lia.
    + apply In_round_robin; [unfold registry_length in Hi; lia | exact Hn].
Qed.

(** Twelve slots against the ten arms of the switch, the buffer holding
    other values before, and twelve calls 1000 microseconds apart. *)
Lemma Init_completes_for_twelve_slots :
  let buf := replicate 12 (RuntimeMeas 7 8 9) in
  let clks := ten_ticks ++ map at_time [11000; 12000] in
  exists g,
    main_f_Init_v 12 12 (boot buf) = Done tt g /\
    main_g_RuntimeMeas_s g = replicate (Z.to_nat 12) zero_record /\
    calls g = [InitCall btn; InitCall pot; InitCall srv] /\
    dispatched (calls g) = [] /\
    exists g',
      run_ticks 12 1000 clks g = Done tt g' /\
      calls g' = calls g ++ round_robin_events 12 12 /\
      In (Dispatch 10 DefaultArm) (calls g') /\
      In (Dispatch 11 DefaultArm) (calls g').
Proof.
  intros buf clks.
  destruct (Init_completes_for_every_count 12 1000 buf 12 clks)
    as (g & Hinit & Hbuf & Hcalls & Hnone & Hlater).
  - lia.
  - reflexivity.
  - simpl. lia.
  - exists g. split; [exact Hinit | split; [exact Hbuf|]].
    split; [exact Hcalls | split; [exact Hnone|]].
    destruct Hlater as (g' & n & Hrun & Htrace & Hn & _ & Hdefault); [lia|].
    assert (n = 12%nat) as ->.
    { apply Hn. simpl. unfold Word.fits. repeat split; lia. }
    exists g'. split; [exact Hrun | split; [exact Htrace | split]].
    + apply Hdefault; [unfold registry_length; lia | simpl; lia].
    + apply Hdefault; [unfold registry_length; lia | simpl; lia].
Defined.
